(** * LiteX bit-banged SPI NOR flash controller

    A shallow embedding of [drivers/mtd/spi-nor/litex-spiflash.c] and the
    properties of its bit-banged transaction engine: control-line helpers,
    byte framing, transaction sequencing, busy polling and the five
    controller operations. *)

From Stdlib Require Import ZArith List Bool Lia.
Import ListNotations.
Local Open Scope Z_scope.

(** ** Constants of the driver (litex-spiflash.c, lines 34-59) *)

Definition SPIFLASH_BITBANG_OFFSET : Z := 0.
Definition SPIFLASH_MISO_OFFSET : Z := 4.
Definition SPIFLASH_BITBANG_EN_OFFSET : Z := 8.

Definition SPIFLASH_ENABLE : Z := 1.
Definition SPIFLASH_DISABLE : Z := 0.
Definition CLK_ENABLE : Z := 2.
Definition CS_ENABLE : Z := 4.
Definition MISO_MODE : Z := 8.

Definition WRITE_ENABLE : Z := 6.
Definition READ_STATUS_REGISTER : Z := 5.
Definition WORK_IN_PROGRESS : Z := 1.
Definition READ_FLAG_STATUS_REGISTER : Z := 112.
Definition PROGRAM_ERR : Z := 16.
Definition ERASE_BUSY : Z := 128.
Definition ERASE_ERR : Z := 32.

Definition TIMEOUT_ERASE_MS : Z := 3000.
Definition TIMEOUT_MS : Z := 50.
Definition BIT_SHIFT : Z := 7.
Definition ADDRESS_SIZE : Z := 3.
Definition DUMMY_CYCLES : Z := 8.

(** ** C integer conversions *)

(** Conversion to [u8]: the value modulo 256. *)
Definition u8 (x : Z) : Z := Z.land x 255.

(** Conversion to [u32]: the value modulo 2^32. *)
Definition u32 (x : Z) : Z := Z.land x 4294967295.

(** Conversion to a signed type of [n] bits, in two's complement. *)
Definition to_signed (n : Z) (x : Z) : Z :=
  (x + 2 ^ (n - 1)) mod 2 ^ n - 2 ^ (n - 1).

(** Conversion to [int]. *)
Definition to_int (x : Z) : Z := to_signed 32 x.

(** Conversion of an integer to C [bool]: nonzero is true. *)
Definition to_bool (x : Z) : bool := negb (x =? 0).

(** Byte order of the host, which decides what [(u8 * ) &addr32] points to. *)
Inductive endianness : Type := LittleEndian | BigEndian.

(** Byte [i] (0..3) of the in-memory representation of a [u32]. *)
Definition u32_byte (e : endianness) (x : Z) (i : Z) : Z :=
  match e with
  | LittleEndian => Z.land (Z.shiftr (u32 x) (8 * i)) 255
  | BigEndian => Z.land (Z.shiftr (u32 x) (8 * (3 - i))) 255
  end.

(** ** What the flash chip and a bus analyser see *)

(** Pin-level events, in the order they happen.  A rising clock edge is
    [Idle] while chip-select is high (the chip ignores it), [Out b] while
    the chip is selected and the data line is driven with [b], and [In] while
    the chip is selected and the line is in capture mode. *)
Inductive event : Type :=
| Select
| Deselect
| Idle (capture : bool)
| Out (bit : bool)
| In
| Jiffies (j : Z)
| Enable (v : Z).

(** Events caused by the control register changing from [old] to [new]. *)
Definition edges (old new : Z) : list event :=
  (if Z.testbit old 2 && negb (Z.testbit new 2) then [Select]
   else if negb (Z.testbit old 2) && Z.testbit new 2 then [Deselect]
   else []) ++
  (if negb (Z.testbit old 1) && Z.testbit new 1 then
     [if Z.testbit new 2 then Idle (Z.testbit new 3)
      else if Z.testbit new 3 then In
      else Out (Z.testbit new 0)]
   else []).

(** ** The platform: everything outside the driver

    The attached chip reacts to every write of the control register and
    presents a byte in the data-input register.  Time is logical: [clock]
    counts the bus accesses made so far and the platform maps it to the
    kernel's [jiffies] counter. *)
Class Platform : Type := {
  flash : Type;
  flash_miso : flash -> Z;
  flash_ctrl : Z -> Z -> Z -> flash -> flash;
  jiffies_of : Z -> Z;
  msecs_to_jiffies : Z -> Z;
  ETIMEDOUT : Z;
  EINVAL : Z;
  byte_order : endianness;
  BITS_PER_LONG : Z
}.

(** Opcodes that the spi-nor framework stores in [struct spi_nor]. *)
Record spi_nor : Type := mkNor {
  erase_opcode : Z;
  read_opcode : Z;
  program_opcode : Z
}.

Section Driver.

Context {P : Platform}.

Record world : Type := mkWorld {
  bitbang : Z;
  bitbang_en : Z;
  chip : flash;
  clock : Z;
  log : list event
}.

(** Modelled from the spec: [litex_read8] of linux/litex.h, which is not
    under src/, as a one-byte read in the register map: control register at
    offset 0, data-input register at offset 4, enable register at offset 8. *)
Definition litex_read8 (off : Z) (w : world) : Z * world :=
  let v := if off =? SPIFLASH_BITBANG_OFFSET then bitbang w
           else if off =? SPIFLASH_MISO_OFFSET then flash_miso (chip w)
           else if off =? SPIFLASH_BITBANG_EN_OFFSET then bitbang_en w
           else 0 in
  (u8 v, mkWorld (bitbang w) (bitbang_en w) (chip w) (clock w + 1) (log w)).

(** Modelled from the spec: [litex_write8] of linux/litex.h, which is not
    under src/, as a one-byte write in the same register map.  A write of
    the control register is seen by the chip and by the bus analyser. *)
Definition litex_write8 (off : Z) (v : Z) (w : world) : world :=
  if off =? SPIFLASH_BITBANG_OFFSET then
    mkWorld (u8 v) (bitbang_en w)
            (flash_ctrl (clock w) (bitbang w) (u8 v) (chip w))
            (clock w + 1) (log w ++ edges (bitbang w) (u8 v))
  else if off =? SPIFLASH_BITBANG_EN_OFFSET then
    mkWorld (bitbang w) (u8 v) (chip w) (clock w + 1) (log w ++ [Enable (u8 v)])
  else
    mkWorld (bitbang w) (bitbang_en w) (chip w) (clock w + 1) (log w).

(** Modelled from the spec: a read of the kernel's [jiffies] counter
    (linux/jiffies.h is not under src/), the current time. *)
Definition get_jiffies (w : world) : Z * world :=
  let j := jiffies_of (clock w) in
  (j, mkWorld (bitbang w) (bitbang_en w) (chip w) (clock w) (log w ++ [Jiffies j])).

(** Conversion to [unsigned long]. *)
Definition ulong (x : Z) : Z := x mod 2 ^ BITS_PER_LONG.

(** Conversion to [long], which is also the width of [ssize_t]. *)
Definition to_long (x : Z) : Z := to_signed BITS_PER_LONG x.

(** Modelled from the spec: [time_after(a, b)] of linux/jiffies.h, which is
    not under src/: the time [a] exceeds the deadline [b].  On a counter
    that wraps the kernel decides it by the sign of the [unsigned long]
    difference [b - a] read as a [long]. *)
Definition time_after (a b : Z) : bool := to_long (ulong (b - a)) <? 0.

(** ** Control-line helpers (lines 68-112) *)

Definition cs (v : Z) (w : world) : world :=
  let new_val := u8 v in
  let r := litex_read8 SPIFLASH_BITBANG_OFFSET w in
  let curr_val := fst r in
  let set_val := u8 (if new_val =? CS_ENABLE then Z.lor curr_val new_val
                     else Z.land curr_val new_val) in
  litex_write8 SPIFLASH_BITBANG_OFFSET set_val (snd r).

Definition clk (v : Z) (w : world) : world :=
  let new_val := u8 v in
  let r := litex_read8 SPIFLASH_BITBANG_OFFSET w in
  let curr_val := fst r in
  let set_val := u8 (if new_val =? CLK_ENABLE then Z.lor curr_val new_val
                     else Z.land curr_val new_val) in
  litex_write8 SPIFLASH_BITBANG_OFFSET set_val (snd r).

Definition miso_read (w : world) : Z * world :=
  let r := litex_read8 SPIFLASH_MISO_OFFSET w in
  (Z.land (fst r) 1, snd r).

Definition mosi_set (mosi : bool) (w : world) : world :=
  let r := litex_read8 SPIFLASH_BITBANG_OFFSET w in
  let curr_val := fst r in
  let set_val := u8 (if mosi then Z.lor curr_val 1
                     else Z.land curr_val (Z.lnot 1)) in
  litex_write8 SPIFLASH_BITBANG_OFFSET set_val (snd r).

Definition enable (v : Z) (w : world) : world :=
  let new_val := u8 v in
  let r := litex_read8 SPIFLASH_BITBANG_OFFSET w in
  let curr_val := fst r in
  let set_val := u8 (if new_val =? MISO_MODE then Z.lor curr_val new_val
                     else Z.land curr_val new_val) in
  litex_write8 SPIFLASH_BITBANG_OFFSET set_val (snd r).

Definition initial_config (w : world) : world :=
  let w := clk (Z.lnot CLK_ENABLE) w in
  let w := cs CS_ENABLE w in
  let w := enable (Z.lnot MISO_MODE) w in
  litex_write8 SPIFLASH_BITBANG_EN_OFFSET SPIFLASH_ENABLE w.

(** ** Clock pulses and byte framing (lines 124-159) *)

(** The body of [for (i = 0; i < n_cycles; i++)], [n] iterations left. *)
Fixpoint dummy_loop (n : nat) (w : world) : world :=
  match n with
  | O => w
  | S n' => dummy_loop n' (clk CLK_ENABLE (clk (Z.lnot CLK_ENABLE) w))
  end.

Definition dummy_cycles (n_cycles : Z) (w : world) : world :=
  dummy_loop (Z.to_nat n_cycles) w.

(** The loop of [spi_bitbang_send] with [n] iterations left ([i = n - 1])
    and the shifted copy [c] of the command. *)
Fixpoint send_loop (n : nat) (c : Z) (w : world) : world :=
  match n with
  | O => w
  | S n' =>
      let w := mosi_set (to_bool (Z.land c 128)) w in
      let c := u8 (Z.shiftl c 1) in
      let w := clk (Z.lnot CLK_ENABLE) w in
      let w := clk CLK_ENABLE w in
      send_loop n' c w
  end.

Definition spi_bitbang_send (command : Z) (w : world) : world :=
  send_loop (Z.to_nat (BIT_SHIFT + 1)) (u8 command) w.

(** The loop of [spi_bitbang_read] with [n] iterations left ([i = n - 1])
    and the bits accumulated so far in [byte]. *)
Fixpoint read_loop (n : nat) (byte : Z) (w : world) : Z * world :=
  match n with
  | O => (byte, w)
  | S n' =>
      let w := clk (Z.lnot CLK_ENABLE) w in
      let w := clk CLK_ENABLE w in
      let r := miso_read w in
      read_loop n' (u8 (Z.lor byte (Z.shiftl (fst r) (Z.of_nat n')))) (snd r)
  end.

Definition spi_bitbang_read (w : world) : Z * world :=
  read_loop (Z.to_nat (BIT_SHIFT + 1)) 0 w.

(** ** Transaction phases (lines 161-194) *)

Definition write_command (command : Z) (w : world) : world :=
  let w := enable (Z.lnot MISO_MODE) w in
  let w := dummy_cycles DUMMY_CYCLES w in
  let w := cs (Z.lnot CS_ENABLE) w in
  spi_bitbang_send command w.

(** The loop of [write_address] with [n] iterations left ([i = n - 1]). *)
Fixpoint address_loop (n : nat) (addr32 : Z) (w : world) : world :=
  match n with
  | O => w
  | S n' =>
      address_loop n' addr32
        (spi_bitbang_send (u32_byte byte_order addr32 (Z.of_nat n')) w)
  end.

Definition write_address (addr : Z) (w : world) : world :=
  address_loop (Z.to_nat ADDRESS_SIZE) (u32 addr) w.

(** The loop of [write_data] over the bytes that it sends. *)
Fixpoint write_data_loop (data : list Z) (w : world) : world :=
  match data with
  | [] => w
  | d :: data' => write_data_loop data' (spi_bitbang_send d w)
  end.

(** [data] is the buffer and [len] the argument, converted to the [int]
    parameter: the loop sends [data[0]] .. [data[len - 1]], and nothing
    when [len] is not positive. *)
Definition write_data (data : list Z) (len : Z) (w : world) : world :=
  write_data_loop (firstn (Z.to_nat (to_int len)) data)
                  (enable (Z.lnot MISO_MODE) w).

Fixpoint read_data_loop (len : nat) (w : world) : list Z * world :=
  match len with
  | O => ([], w)
  | S len' =>
      let r := spi_bitbang_read w in
      let rest := read_data_loop len' (snd r) in
      (fst r :: fst rest, snd rest)
  end.

(** [len] is the argument, converted to the [int] parameter: the loop
    fills [buffer[0]] .. [buffer[len - 1]], and nothing when [len] is not
    positive. *)
Definition read_data (len : Z) (w : world) : list Z * world :=
  read_data_loop (Z.to_nat (to_int len)) (enable MISO_MODE w).

(** ** Register read and busy polling (lines 196-223) *)

(** A [size_t] is a natural number. *)
Definition spi_flash_nor_read_reg (opcode : Z) (len : nat) (w : world)
  : Z * list Z * world :=
  let w := write_command opcode w in
  let r := read_data (Z.of_nat len) w in
  let w := cs CS_ENABLE (snd r) in
  (0, fst r, w).

Definition read_status (status_command : Z) (w : world) : Z * world :=
  let r := spi_flash_nor_read_reg status_command 1 w in
  (nth 0 (snd (fst r)) 0, snd r).

(** The [while] loop of [busy]; [fuel] bounds the number of polls and
    [None] means that the bound was reached. *)
Fixpoint busy_loop (fuel : nat) (end_ : Z) (reg flag : Z) (w : world)
  : option (Z * world) :=
  match fuel with
  | O => None
  | S fuel' =>
      let r := read_status reg w in
      if to_bool (Z.land (fst r) flag) then
        let t := get_jiffies (snd r) in
        if time_after (fst t) end_ then Some (- ETIMEDOUT, snd t)
        else busy_loop fuel' end_ reg flag (snd t)
      else Some (0, snd r)
  end.

Definition busy (fuel : nat) (time : Z) (reg flag : Z) (w : world)
  : option (Z * world) :=
  let t := get_jiffies w in
  let end_ := ulong (fst t + msecs_to_jiffies (u32 time)) in
  busy_loop fuel end_ reg flag (snd t).

(** ** The five controller operations (lines 225-299) *)

Definition spi_flash_nor_erase (fuel : nat) (nor : spi_nor) (offs : Z)
  (w : world) : option (Z * world) :=
  let w := write_command WRITE_ENABLE w in
  let w := cs CS_ENABLE w in
  match busy fuel TIMEOUT_MS READ_STATUS_REGISTER WORK_IN_PROGRESS w with
  | None => None
  | Some (r, w) =>
  if negb (r =? 0) then Some (- ETIMEDOUT, w) else
  let w := write_command (erase_opcode nor) w in
  let w := write_address offs w in
  let w := cs CS_ENABLE w in
  match busy fuel TIMEOUT_ERASE_MS READ_FLAG_STATUS_REGISTER ERASE_BUSY w with
  | None => None
  | Some (r, w) =>
  if negb (r =? 0) then Some (- ETIMEDOUT, w) else
  match busy fuel TIMEOUT_ERASE_MS READ_STATUS_REGISTER WORK_IN_PROGRESS w with
  | None => None
  | Some (r, w) =>
  if negb (r =? 0) then Some (- ETIMEDOUT, w) else
  let s := read_status READ_FLAG_STATUS_REGISTER w in
  Some (Z.land (fst s) ERASE_ERR, snd s)
  end end end.

Definition spi_flash_nor_read (nor : spi_nor) (from : Z) (length : nat)
  (w : world) : Z * list Z * world :=
  let w := write_command (read_opcode nor) w in
  let w := write_address from w in
  let r := read_data (Z.of_nat length) w in
  let w := cs CS_ENABLE (snd r) in
  (to_long (Z.of_nat length), fst r, w).

Definition spi_flash_nor_write (fuel : nat) (nor : spi_nor) (to : Z)
  (buf : list Z) (w : world) : option (Z * world) :=
  let len := Z.of_nat (List.length buf) in
  let w := write_command WRITE_ENABLE w in
  let w := cs CS_ENABLE w in
  match busy fuel TIMEOUT_MS READ_STATUS_REGISTER WORK_IN_PROGRESS w with
  | None => None
  | Some (r, w) =>
  if negb (r =? 0) then Some (- ETIMEDOUT, w) else
  let w := write_command (program_opcode nor) w in
  let w := write_address to w in
  let w := write_data buf len w in
  let w := cs CS_ENABLE w in
  match busy fuel TIMEOUT_MS READ_STATUS_REGISTER WORK_IN_PROGRESS w with
  | None => None
  | Some (r, w) =>
  if negb (r =? 0) then Some (- ETIMEDOUT, w) else
  let s := read_status READ_FLAG_STATUS_REGISTER w in
  if to_bool (Z.land (fst s) PROGRAM_ERR) then Some (- EINVAL, snd s)
  else Some (to_long len, snd s)
  end end.

Definition spi_flash_nor_write_reg (fuel : nat) (opcode : Z) (buf : list Z)
  (w : world) : option (Z * world) :=
  let w := write_command WRITE_ENABLE w in
  let w := cs CS_ENABLE w in
  match busy fuel TIMEOUT_MS READ_STATUS_REGISTER WORK_IN_PROGRESS w with
  | None => None
  | Some (r, w) =>
  if negb (r =? 0) then Some (- ETIMEDOUT, w) else
  let w := write_command opcode w in
  let w := write_data buf (Z.of_nat (length buf)) w in
  let w := cs CS_ENABLE w in
  match busy fuel TIMEOUT_MS READ_STATUS_REGISTER WORK_IN_PROGRESS w with
  | None => None
  | Some (r, w) =>
  if negb (r =? 0) then Some (- ETIMEDOUT, w) else
  Some (0, w)
  end end.

End Driver.

(** ** Simulated platforms

    Executable instances of [Platform], used to run the driver. *)

(** A chip whose data-input register always reads [miso], under a 32-bit
    kernel; one jiffy per bus access and per millisecond, counted in an
    [unsigned long]. *)
Definition const_platform (miso : Z) : Platform :=
  {| flash := unit;
     flash_miso := fun _ => miso;
     flash_ctrl := fun _ _ _ f => f;
     jiffies_of := fun c => c mod 2 ^ 32;
     msecs_to_jiffies := fun ms => ms;
     ETIMEDOUT := 110;
     EINVAL := 22;
     byte_order := LittleEndian;
     BITS_PER_LONG := 32 |}.

(** The same chip on a big-endian host. *)
Definition const_platform_be (miso : Z) : Platform :=
  {| flash := unit;
     flash_miso := fun _ => miso;
     flash_ctrl := fun _ _ _ f => f;
     jiffies_of := fun c => c mod 2 ^ 32;
     msecs_to_jiffies := fun ms => ms;
     ETIMEDOUT := 110;
     EINVAL := 22;
     byte_order := BigEndian;
     BITS_PER_LONG := 32 |}.

(** Wire loopback: the sampled input bit is the data-out bit of the last
    control-register write. *)
Definition wire_loopback : Platform :=
  {| flash := Z;
     flash_miso := fun f => f;
     flash_ctrl := fun _ _ new _ => Z.land new 1;
     jiffies_of := fun c => c mod 2 ^ 32;
     msecs_to_jiffies := fun ms => ms;
     ETIMEDOUT := 110;
     EINVAL := 22;
     byte_order := LittleEndian;
     BITS_PER_LONG := 32 |}.

(** Delay-line loopback: on each rising clock edge the chip presents the
    oldest queued bit on the input line and queues the driven bit. *)
Definition delay_step (old new : Z) (f : Z * list bool) : Z * list bool :=
  if negb (Z.testbit old 1) && Z.testbit new 1 then
    (Z.b2z (hd false (snd f)), tl (snd f) ++ [Z.testbit new 0])
  else f.

Definition delay_loopback : Platform :=
  {| flash := Z * list bool;
     flash_miso := fst;
     flash_ctrl := fun _ old new f => delay_step old new f;
     jiffies_of := fun c => c mod 2 ^ 32;
     msecs_to_jiffies := fun ms => ms;
     ETIMEDOUT := 110;
     EINVAL := 22;
     byte_order := LittleEndian;
     BITS_PER_LONG := 32 |}.

(** A chip that is busy for ever (every sampled bit is 1) under a 64-bit
    kernel whose [jiffies] counter is 50 ticks before its wrap-around when
    the clock starts. *)
Definition wrap_platform : Platform :=
  {| flash := unit;
     flash_miso := fun _ => 1;
     flash_ctrl := fun _ _ _ f => f;
     jiffies_of := fun c => (2 ^ 64 - 50 + c) mod 2 ^ 64;
     msecs_to_jiffies := fun ms => ms;
     ETIMEDOUT := 110;
     EINVAL := 22;
     byte_order := LittleEndian;
     BITS_PER_LONG := 64 |}.

(** The queue of the delay line after the bit [b] is clocked in. *)
Definition push_bit (q : list bool) (b : bool) : list bool := tl q ++ [b].

(** The byte that [spi_bitbang_read] builds from the sampled bits [l], the
    first one at the highest position, on top of [byte]. *)
Fixpoint assemble (byte : Z) (l : list bool) : Z :=
  match l with
  | [] => byte
  | b :: l' =>
      assemble (u8 (Z.lor byte (Z.shiftl (Z.b2z b) (Z.of_nat (length l'))))) l'
  end.

(** The world of [const_platform] before the driver is bound: all
    registers zero. *)
Definition reset_world (miso : Z) : world (P := const_platform miso) :=
  mkWorld (P := const_platform miso) 0 0 tt 0 [].

(** The world of [const_platform] after [initial_config]. *)
Definition ready_world (miso : Z) : world (P := const_platform miso) :=
  initial_config (reset_world miso).

(** The world of [const_platform_be] after [initial_config]. *)
Definition ready_world_be (miso : Z) : world (P := const_platform_be miso) :=
  initial_config (mkWorld (P := const_platform_be miso) 0 0 tt 0 []).

(** A world of the wire loopback, all registers zero. *)
Definition wire_world : world (P := wire_loopback) :=
  mkWorld (P := wire_loopback) 0 0 0 0 [].

(** A world of the delay-line loopback with eight zero bits queued. *)
Definition delay_world : world (P := delay_loopback) :=
  mkWorld (P := delay_loopback) 0 0 (0, repeat false 8) 0 [].

(** The world of [wrap_platform] when its clock starts, the chip
    deselected and the engine enabled. *)
Definition wrap_world : world (P := wrap_platform) :=
  mkWorld (P := wrap_platform) CS_ENABLE SPIFLASH_ENABLE tt 0 [].

(** Opcodes of a common flash family: sector erase, read, page program. *)
Definition sample_nor : spi_nor := mkNor 216 3 2.

(** ** Vocabulary of the properties *)

Section Vocabulary.

Context {P : Platform}.

(** The operation [f] leaves every bit of the control register except bit
    [i] as it was. *)
Definition touches_only (i : Z) (f : world -> world) (w : world) : Prop :=
  forall j, 0 <= j < 8 -> j <> i ->
    Z.testbit (bitbang (f w)) j = Z.testbit (bitbang w) j.

(** The level of control line [i]: bit [i] of the control register. *)
Definition line (i : Z) (w : world) : bool := Z.testbit (bitbang w) i.

(** Chip-select is high: the chip is not selected. *)
Definition deselected (w : world) : Prop := line 2 w = true.

(** The event of a rising clock edge, from the levels of chip-select, of the
    capture-mode line and of the data-out line. *)
Definition pulse_event (cs_high capture mosi : bool) : event :=
  if cs_high then Idle capture else if capture then In else Out mosi.

(** A read of the control register followed by a write of [new] to it. *)
Definition ctrl_update (new : Z) (w : world) : world :=
  mkWorld new (bitbang_en w) (flash_ctrl (clock w + 1) (bitbang w) new (chip w))
          (clock w + 1 + 1) (log w ++ edges (bitbang w) new).

(** The byte [c] with bit [i] given the value [b]. *)
Definition with_bit (c : Z) (i : Z) (b : bool) : Z :=
  u8 (if b then Z.setbit c i else Z.clearbit c i).

(** A read-modify-write of the control register that gives bit [i] the
    value [b]. *)
Definition set_line (i : Z) (b : bool) (w : world) : world :=
  ctrl_update (with_bit (u8 (bitbang w)) i b) w.

(** One clock pulse: low, then high. *)
Definition pulse (w : world) : world :=
  clk CLK_ENABLE (clk (Z.lnot CLK_ENABLE) w).

(** *** Expected pin-level traces *)

(** One byte driven on the data line, most significant bit first. *)
Definition byte_out (b : Z) : list event :=
  map (fun i => Out (Z.testbit b i)) [7; 6; 5; 4; 3; 2; 1; 0].

Definition bytes_out (l : list Z) : list event := flat_map byte_out l.

(** [n] bytes sampled from the data line. *)
Definition bytes_in (n : nat) : list event := repeat In (8 * n).

(** A three-byte address, most significant byte first. *)
Definition address_out (a : Z) : list event :=
  bytes_out [Z.land (Z.shiftr a 16) 255; Z.land (Z.shiftr a 8) 255;
             Z.land a 255].

(** The opcode phase: eight clock pulses with the chip deselected and the
    line in output mode, then select, then the opcode byte. *)
Definition command (op : Z) : list event :=
  repeat (Idle false) 8 ++ [Select] ++ byte_out op.

(** A register read of [n] bytes. *)
Definition read_frame (op : Z) (n : nat) : list event :=
  command op ++ bytes_in n ++ [Deselect].

(** *** Busy polling without fuel *)

(** The status byte that a poll of register [reg] returns in world [w]. *)
Definition status_of (reg : Z) (w : world) : Z := fst (read_status reg w).

(** The poll finds a bit of [flag] set. *)
Definition still_busy (reg flag : Z) (w : world) : bool :=
  to_bool (Z.land (status_of reg w) flag).

(** The time read after the poll. *)
Definition poll_time (reg : Z) (w : world) : Z :=
  fst (get_jiffies (snd (read_status reg w))).

(** The world after a poll and the reading of the time that follows it. *)
Definition poll_step (reg : Z) (w : world) : world :=
  snd (get_jiffies (snd (read_status reg w))).

Fixpoint polls (reg : Z) (n : nat) (w : world) : world :=
  match n with
  | O => w
  | S n' => polls reg n' (poll_step reg w)
  end.

(** The deadline of a wait that starts in [w]: the time at entry plus the
    converted delay, as an [unsigned long]. *)
Definition deadline_of (time : Z) (w : world) : Z :=
  ulong (fst (get_jiffies w) + msecs_to_jiffies (u32 time)).

(** [waited time reg flag w r w']: the wait that starts in [w] ends in [w']
    with result [r].  [n] polls find the flag set with the time not after
    the deadline; the next poll either finds the flag clear (result 0) or
    finds it set with the time after the deadline (result [- ETIMEDOUT]). *)
Definition waited (time reg flag : Z) (w : world) (r : Z) (w' : world) : Prop :=
  exists n : nat,
    let w0 := snd (get_jiffies w) in
    (forall k, (k < n)%nat ->
       still_busy reg flag (polls reg k w0) = true /\
       time_after (poll_time reg (polls reg k w0)) (deadline_of time w) = false) /\
    (if still_busy reg flag (polls reg n w0)
     then time_after (poll_time reg (polls reg n w0)) (deadline_of time w) = true /\
          r = - ETIMEDOUT /\ w' = poll_step reg (polls reg n w0)
     else r = 0 /\ w' = snd (read_status reg (polls reg n w0))).

(** [wait_ends time reg flag w timed_out w']: the same wait, told by how it
    ends: [timed_out] says that the deciding poll found the flag set with
    the time after the deadline. *)
Definition wait_ends (time reg flag : Z) (w : world) (timed_out : bool)
  (w' : world) : Prop :=
  exists n : nat,
    let w0 := snd (get_jiffies w) in
    (forall k, (k < n)%nat ->
       still_busy reg flag (polls reg k w0) = true /\
       time_after (poll_time reg (polls reg k w0)) (deadline_of time w) = false) /\
    still_busy reg flag (polls reg n w0) = timed_out /\
    (if timed_out
     then time_after (poll_time reg (polls reg n w0)) (deadline_of time w) = true /\
          w' = poll_step reg (polls reg n w0)
     else w' = snd (read_status reg (polls reg n w0))).

(** Time goes on, and not too fast.  The [jiffies] counter is an
    [unsigned long] copy of a time [elapsed] that never runs backwards,
    passes every instant, and advances by less than half the range of the
    counter during one status poll (128 register accesses). *)
Definition clock_live : Prop :=
  exists elapsed : Z -> Z,
    0 < BITS_PER_LONG /\
    (forall c, jiffies_of c = elapsed c mod 2 ^ BITS_PER_LONG) /\
    (forall c c', c <= c' -> elapsed c <= elapsed c') /\
    (forall t, exists c, t < elapsed c) /\
    (forall c, elapsed (c + 128) - elapsed c < 2 ^ (BITS_PER_LONG - 1)).

(** *** Chip-select bracketing *)

(** What a bus analyser knows between two events: the chip is released and
    [idles] dummy pulses have been clocked since, or the chip is selected
    and [bits] data bits have been clocked since. *)
Inductive bus : Type :=
| Released (idles : nat)
| Selected (bits : nat).

(** Follows chip-select through a trace.  The trace is accepted only when
    it is made of whole transactions: dummy pulses in output mode with the
    chip released, a select after exactly eight of them, at least eight
    driven bits (the opcode) before any sampled bit and before the deselect,
    and every data bit between the select and the deselect.  The time is
    read only between transactions and the enable register is never
    written. *)
Fixpoint cs_track (s : bus) (l : list event) : option bus :=
  match l with
  | [] => Some s
  | e :: l' =>
      match e, s with
      | Idle false, Released k => cs_track (Released (S k)) l'
      | Select, Released k =>
          if Nat.eqb k 8 then cs_track (Selected 0) l' else None
      | Jiffies _, Released O => cs_track (Released 0) l'
      | Out _, Selected n => cs_track (Selected (S n)) l'
      | In, Selected n =>
          if Nat.leb 8 n then cs_track (Selected (S n)) l' else None
      | Deselect, Selected n =>
          if Nat.leb 8 n then cs_track (Released 0) l' else None
      | _, _ => None
      end
  end.

(** From [w] to [w'] the trace grew by whole transactions. *)
Definition bracketed (w w' : world) : Prop :=
  exists l, log w' = log w ++ l /\ cs_track (Released 0) l = Some (Released 0).

(** From [w] to [w'] the trace grew by whole transactions, at least one,
    and the first one opens with the opcode [op]. *)
Definition transacts (op : Z) (w w' : world) : Prop :=
  exists rest,
    log w' = log w ++ command op ++ rest /\
    cs_track (Released 0) (command op ++ rest) = Some (Released 0).

(** The trace holds no write of the enable register. *)
Definition no_enable (l : list event) : bool :=
  forallb (fun e => match e with Enable _ => false | _ => true end) l.

(** From [w] to [w'] the enable register was never written: the trace grew
    by events other than [Enable], and the register holds what it held. *)
Definition enable_untouched (w w' : world) : Prop :=
  (exists l, log w' = log w ++ l /\ no_enable l = true) /\
  bitbang_en w' = bitbang_en w.

(** *** The transactions of the operations *)

(** The WRITE-ENABLE transaction that opens erase, write and write_reg. *)
Definition write_enable (w : world) : world :=
  cs CS_ENABLE (write_command WRITE_ENABLE w).

(** The erase transaction: opcode and address. *)
Definition erase_command (nor : spi_nor) (offs : Z) (w : world) : world :=
  cs CS_ENABLE (write_address offs (write_command (erase_opcode nor) w)).

(** The program transaction: opcode, address and payload. *)
Definition program_command (nor : spi_nor) (to : Z) (buf : list Z)
  (w : world) : world :=
  cs CS_ENABLE
    (write_data buf (Z.of_nat (length buf))
       (write_address to (write_command (program_opcode nor) w))).

(** The register-write transaction: opcode and payload. *)
Definition register_command (opcode : Z) (buf : list Z) (w : world) : world :=
  cs CS_ENABLE (write_data buf (Z.of_nat (length buf)) (write_command opcode w)).

(** The number of iterations of a loop bounded by an [int] that receives
    the [size_t] value [n]. *)
Definition int_count (n : nat) : nat := Z.to_nat (to_int (Z.of_nat n)).

(** The bytes of the payload that [write_data] sends. *)
Definition sent_payload (buf : list Z) : list Z :=
  firstn (int_count (length buf)) buf.

(** The bytes of the address as [write_address] sends them. *)
Definition address_bytes (a : Z) : list Z :=
  [u32_byte byte_order (u32 a) 2; u32_byte byte_order (u32 a) 1;
   u32_byte byte_order (u32 a) 0].

(** *** Outcomes of the operations, without fuel *)

(** The code after a wait: [if (busy(...) != 0) return -ETIMEDOUT;] and
    then the rest [cont]. *)
Definition guarded (b : option (Z * world))
  (cont : world -> option (Z * world)) : option (Z * world) :=
  match b with
  | None => None
  | Some (r, w) => if negb (r =? 0) then Some (- ETIMEDOUT, w) else cont w
  end.

(** The operation waits in [w]; if the wait fails it returns [- ETIMEDOUT]
    in the world that the wait left, otherwise it goes on as [k] says. *)
Definition after_wait (time reg flag : Z) (w : world) (r : Z) (w' : world)
  (k : world -> Prop) : Prop :=
  exists r1 w1,
    waited time reg flag w r1 w1 /\
    ((r1 <> 0 /\ r = - ETIMEDOUT /\ w' = w1) \/ (r1 = 0 /\ k w1)).

Definition erase_outcome (nor : spi_nor) (offs : Z) (w : world) (r : Z)
  (w' : world) : Prop :=
  after_wait TIMEOUT_MS READ_STATUS_REGISTER WORK_IN_PROGRESS
    (write_enable w) r w' (fun w1 =>
  after_wait TIMEOUT_ERASE_MS READ_FLAG_STATUS_REGISTER ERASE_BUSY
    (erase_command nor offs w1) r w' (fun w2 =>
  after_wait TIMEOUT_ERASE_MS READ_STATUS_REGISTER WORK_IN_PROGRESS
    w2 r w' (fun w3 =>
  r = Z.land (status_of READ_FLAG_STATUS_REGISTER w3) ERASE_ERR /\
  w' = snd (read_status READ_FLAG_STATUS_REGISTER w3)))).

Definition write_outcome (nor : spi_nor) (to : Z) (buf : list Z) (w : world)
  (r : Z) (w' : world) : Prop :=
  after_wait TIMEOUT_MS READ_STATUS_REGISTER WORK_IN_PROGRESS
    (write_enable w) r w' (fun w1 =>
  after_wait TIMEOUT_MS READ_STATUS_REGISTER WORK_IN_PROGRESS
    (program_command nor to buf w1) r w' (fun w2 =>
  r = (if Z.testbit (status_of READ_FLAG_STATUS_REGISTER w2) 4
       then - EINVAL else to_long (Z.of_nat (length buf))) /\
  w' = snd (read_status READ_FLAG_STATUS_REGISTER w2))).

Definition write_reg_outcome (opcode : Z) (buf : list Z) (w : world)
  (r : Z) (w' : world) : Prop :=
  after_wait TIMEOUT_MS READ_STATUS_REGISTER WORK_IN_PROGRESS
    (write_enable w) r w' (fun w1 =>
  after_wait TIMEOUT_MS READ_STATUS_REGISTER WORK_IN_PROGRESS
    (register_command opcode buf w1) r w' (fun w2 =>
  r = 0 /\ w' = w2)).

(** *** Read-modify-write *)

(** [f] reads the control register once and writes one full byte back, and
    only bit [i] of the register can differ afterwards. *)
Definition read_modify_write (i : Z) (f : world -> world) (w : world) : Prop :=
  f w = ctrl_update (bitbang (f w)) w /\
  0 <= bitbang (f w) < 256 /\
  touches_only i f w.

End Vocabulary.

(** * Properties *)

Section BitLemmas.

Lemma u8_testbit (x j : Z) : 0 <= j < 8 -> Z.testbit (u8 x) j = Z.testbit x j.
Proof.
  intros Hj. unfold u8. rewrite Z.land_spec.
  change 255 with (Z.ones 8). rewrite Z.ones_spec_low by lia.
  apply andb_true_r.
Qed.

Lemma u8_testbit_high (x j : Z) : 8 <= j -> Z.testbit (u8 x) j = false.
Proof.
  intros Hj. unfold u8. rewrite Z.land_spec.
  change 255 with (Z.ones 8). rewrite Z.ones_spec_high by lia.
  apply andb_false_r.
Qed.

Lemma u8_range (x : Z) : 0 <= u8 x < 256.
Proof.
  unfold u8. change 255 with (Z.ones 8). rewrite Z.land_ones by lia.
  apply Z.mod_pos_bound. lia.
Qed.

Lemma u8_idem (x : Z) : u8 (u8 x) = u8 x.
Proof.
  unfold u8. rewrite <- Z.land_assoc. reflexivity.
Qed.

End BitLemmas.

(** ** The control-line helpers as single-bit updates *)

Section Lines.

Context {P : Platform}.

Lemma u8_clear_mask (c m : Z) :
  u8 (Z.land c (u8 (Z.lnot m))) = u8 (Z.ldiff c m).
Proof.
  apply Z.bits_inj'. intros j Hj.
  destruct (Z_lt_ge_dec j 8) as [Hlt | Hge].
  - rewrite !u8_testbit by lia.
    rewrite Z.land_spec, Z.ldiff_spec, u8_testbit, Z.lnot_spec by lia.
    reflexivity.
  - rewrite !u8_testbit_high by lia. reflexivity.
Qed.

Lemma rmw_eq (f : Z -> Z) (w : world) :
  litex_write8 SPIFLASH_BITBANG_OFFSET
    (u8 (f (fst (litex_read8 SPIFLASH_BITBANG_OFFSET w))))
    (snd (litex_read8 SPIFLASH_BITBANG_OFFSET w))
  = ctrl_update (u8 (f (u8 (bitbang w)))) w.
Proof.
  unfold litex_write8, litex_read8, ctrl_update. cbn -[u8].
  rewrite u8_idem. reflexivity.
Qed.

(** A helper called with its own mask sets the bit; called with the
    complement of the mask it clears the bit. *)
Lemma helper_set (mask i : Z) (w : world) :
  0 <= mask < 256 -> mask = Z.shiftl 1 i ->
  ctrl_update (u8 (if u8 mask =? mask then Z.lor (u8 (bitbang w)) (u8 mask)
                   else Z.land (u8 (bitbang w)) (u8 mask))) w
  = set_line i true w.
Proof.
  intros Hm Hi. unfold set_line, with_bit.
  assert (E : u8 mask = mask).
  { unfold u8. change 255 with (Z.ones 8). rewrite Z.land_ones by lia.
    apply Z.mod_small. lia. }
  rewrite E, Z.eqb_refl. unfold Z.setbit. rewrite <- Hi. reflexivity.
Qed.

Lemma helper_clear (mask i : Z) (w : world) :
  (u8 (Z.lnot mask) =? mask) = false -> mask = Z.shiftl 1 i ->
  ctrl_update (u8 (if u8 (Z.lnot mask) =? mask
                   then Z.lor (u8 (bitbang w)) (u8 (Z.lnot mask))
                   else Z.land (u8 (bitbang w)) (u8 (Z.lnot mask)))) w
  = set_line i false w.
Proof.
  intros Hm Hi. unfold set_line, with_bit. rewrite Hm.
  rewrite u8_clear_mask. unfold Z.clearbit. rewrite <- Hi. reflexivity.
Qed.

Lemma clk_high_eq (w : world) : clk CLK_ENABLE w = set_line 1 true w.
Proof.
  unfold clk.
  rewrite (rmw_eq (fun c => if u8 CLK_ENABLE =? CLK_ENABLE
                            then Z.lor c (u8 CLK_ENABLE)
                            else Z.land c (u8 CLK_ENABLE))).
  apply helper_set; [unfold CLK_ENABLE; lia | reflexivity].
Qed.

Lemma clk_low_eq (w : world) : clk (Z.lnot CLK_ENABLE) w = set_line 1 false w.
Proof.
  unfold clk.
  rewrite (rmw_eq (fun c => if u8 (Z.lnot CLK_ENABLE) =? CLK_ENABLE
                            then Z.lor c (u8 (Z.lnot CLK_ENABLE))
                            else Z.land c (u8 (Z.lnot CLK_ENABLE)))).
  apply helper_clear; reflexivity.
Qed.

Lemma cs_high_eq (w : world) : cs CS_ENABLE w = set_line 2 true w.
Proof.
  unfold cs.
  rewrite (rmw_eq (fun c => if u8 CS_ENABLE =? CS_ENABLE
                            then Z.lor c (u8 CS_ENABLE)
                            else Z.land c (u8 CS_ENABLE))).
  apply helper_set; [unfold CS_ENABLE; lia | reflexivity].
Qed.

Lemma cs_low_eq (w : world) : cs (Z.lnot CS_ENABLE) w = set_line 2 false w.
Proof.
  unfold cs.
  rewrite (rmw_eq (fun c => if u8 (Z.lnot CS_ENABLE) =? CS_ENABLE
                            then Z.lor c (u8 (Z.lnot CS_ENABLE))
                            else Z.land c (u8 (Z.lnot CS_ENABLE)))).
  apply helper_clear; reflexivity.
Qed.

Lemma enable_high_eq (w : world) : enable MISO_MODE w = set_line 3 true w.
Proof.
  unfold enable.
  rewrite (rmw_eq (fun c => if u8 MISO_MODE =? MISO_MODE
                            then Z.lor c (u8 MISO_MODE)
                            else Z.land c (u8 MISO_MODE))).
  apply helper_set; [unfold MISO_MODE; lia | reflexivity].
Qed.

Lemma enable_low_eq (w : world) : enable (Z.lnot MISO_MODE) w = set_line 3 false w.
Proof.
  unfold enable.
  rewrite (rmw_eq (fun c => if u8 (Z.lnot MISO_MODE) =? MISO_MODE
                            then Z.lor c (u8 (Z.lnot MISO_MODE))
                            else Z.land c (u8 (Z.lnot MISO_MODE)))).
  apply helper_clear; reflexivity.
Qed.

Lemma mosi_set_eq (b : bool) (w : world) : mosi_set b w = set_line 0 b w.
Proof.
  unfold mosi_set.
  rewrite (rmw_eq (fun c => if b then Z.lor c 1 else Z.land c (Z.lnot 1))).
  unfold set_line, with_bit. destruct b; [reflexivity |].
  unfold Z.clearbit. rewrite Z.ldiff_land. reflexivity.
Qed.

(** *** Bits and events of a single-bit update *)

Lemma with_bit_testbit (c i j : Z) (b : bool) :
  0 <= i -> 0 <= j < 8 ->
  Z.testbit (with_bit c i b) j = if j =? i then b else Z.testbit c j.
Proof.
  intros Hi Hj. unfold with_bit. rewrite u8_testbit by lia.
  destruct b.
  - rewrite Z.setbit_eqb by lia. rewrite (Z.eqb_sym i j).
    destruct (j =? i); reflexivity.
  - rewrite Z.clearbit_eqb. rewrite (Z.eqb_sym i j).
    destruct (j =? i); [apply andb_false_r | apply andb_true_r].
Qed.

Lemma line_set_line (i j : Z) (b : bool) (w : world) :
  0 <= i -> 0 <= j < 8 ->
  line j (set_line i b w) = if j =? i then b else line j w.
Proof.
  intros Hi Hj. unfold line, set_line, ctrl_update. cbn [bitbang].
  rewrite with_bit_testbit by lia. rewrite u8_testbit by lia. reflexivity.
Qed.

Lemma log_set_line (i : Z) (b : bool) (w : world) :
  0 <= i ->
  log (set_line i b w) =
  log w ++
  (if line 2 w && negb (if 2 =? i then b else line 2 w) then [Select]
   else if negb (line 2 w) && (if 2 =? i then b else line 2 w) then [Deselect]
   else []) ++
  (if negb (line 1 w) && (if 1 =? i then b else line 1 w) then
     [pulse_event (if 2 =? i then b else line 2 w)
                  (if 3 =? i then b else line 3 w)
                  (if 0 =? i then b else line 0 w)]
   else []).
Proof.
  intros Hi. unfold set_line, ctrl_update. cbn [log]. f_equal.
  unfold edges, pulse_event, line.
  rewrite !with_bit_testbit by lia. rewrite !u8_testbit by lia.
  reflexivity.
Qed.

Lemma clock_set_line (i : Z) (b : bool) (w : world) :
  clock (set_line i b w) = clock w + 2.
Proof. unfold set_line, ctrl_update. cbn [clock]. lia. Qed.

Lemma en_set_line (i : Z) (b : bool) (w : world) :
  bitbang_en (set_line i b w) = bitbang_en w.
Proof. reflexivity. Qed.

(** *** One clock pulse *)

Lemma line_pulse (j : Z) (w : world) :
  0 <= j < 8 -> line j (pulse w) = if j =? 1 then true else line j w.
Proof.
  intros Hj. unfold pulse. rewrite clk_low_eq, clk_high_eq.
  rewrite !line_set_line by lia. destruct (j =? 1); reflexivity.
Qed.

Lemma log_pulse (w : world) :
  log (pulse w) = log w ++ [pulse_event (line 2 w) (line 3 w) (line 0 w)].
Proof.
  unfold pulse. rewrite clk_low_eq, clk_high_eq.
  rewrite !log_set_line by lia. rewrite !line_set_line by lia.
  cbn [Z.eqb Pos.eqb]. rewrite <- app_assoc. f_equal.
  destruct (line 2 w), (line 1 w); reflexivity.
Qed.

Lemma clock_pulse (w : world) : clock (pulse w) = clock w + 4.
Proof.
  unfold pulse. rewrite clk_low_eq, clk_high_eq, !clock_set_line. lia.
Qed.

End Lines.

(** ** Byte framing *)

Section Framing.

Context {P : Platform}.

Lemma to_bool_msb (c : Z) : to_bool (Z.land c 128) = Z.testbit c 7.
Proof.
  unfold to_bool.
  assert (E : Z.land c 128 = if Z.testbit c 7 then 128 else 0).
  { apply Z.bits_inj'. intros j Hj. rewrite Z.land_spec.
    change 128 with (2 ^ 7). rewrite Z.pow2_bits_eqb by lia.
    destruct (Z.eqb_spec 7 j) as [<- | Hne].
    - destruct (Z.testbit c 7); [rewrite Z.pow2_bits_eqb by lia | rewrite Z.bits_0];
        reflexivity.
    - rewrite andb_false_r.
      destruct (Z.testbit c 7); [rewrite Z.pow2_bits_eqb by lia | rewrite Z.bits_0].
      + symmetry. apply Z.eqb_neq. exact Hne.
      + reflexivity. }
  rewrite E. destruct (Z.testbit c 7); reflexivity.
Qed.

Lemma shifted_testbit (c j : Z) :
  0 <= j < 8 -> Z.testbit (u8 (Z.shiftl c 1)) j = Z.testbit c (j - 1).
Proof.
  intros Hj. rewrite u8_testbit by lia. apply Z.shiftl_spec. lia.
Qed.

Lemma send_loop_step (n : nat) (c : Z) (w : world) :
  send_loop (S n) c w =
  send_loop n (u8 (Z.shiftl c 1)) (pulse (set_line 0 (Z.testbit c 7) w)).
Proof.
  cbn [send_loop]. rewrite to_bool_msb, mosi_set_eq. reflexivity.
Qed.

Lemma send_loop_lines (n : nat) : forall (c : Z) (w : world) (j : Z),
  2 <= j < 8 -> line j (send_loop n c w) = line j w.
Proof.
  induction n as [| n IH]; intros c w j Hj; [reflexivity |].
  rewrite send_loop_step, IH by lia.
  rewrite line_pulse, line_set_line by lia.
  destruct (Z.eqb_spec j 1); [lia |]. destruct (Z.eqb_spec j 0); [lia |].
  reflexivity.
Qed.

Lemma send_loop_log (n : nat) : forall (c : Z) (w : world),
  (n <= 8)%nat ->
  log (send_loop n c w) =
  log w ++ map (fun k => pulse_event (line 2 w) (line 3 w)
                           (Z.testbit c (7 - Z.of_nat k))) (seq 0 n).
Proof.
  induction n as [| n IH]; intros c w Hn.
  - cbn. rewrite app_nil_r. reflexivity.
  - rewrite send_loop_step, IH by lia.
    rewrite log_pulse, !line_pulse, !line_set_line by lia.
    rewrite log_set_line by lia. cbn [Z.eqb Pos.eqb].
    replace ((if line 2 w && negb (line 2 w) then [Select]
              else if negb (line 2 w) && line 2 w then [Deselect] else []) ++
             (if negb (line 1 w) && line 1 w
              then [pulse_event (line 2 w) (line 3 w) (Z.testbit c 7)]
              else [])) with (@nil event)
      by (destruct (line 2 w), (line 1 w); reflexivity).
    rewrite app_nil_r, <- app_assoc. f_equal.
    cbn [seq map app]. f_equal.
    rewrite <- seq_shift, map_map. apply map_ext_in.
    intros k Hk. apply in_seq in Hk. f_equal.
    rewrite shifted_testbit by lia. f_equal. lia.
Qed.

Lemma log_send (b : Z) (w : world) :
  log (spi_bitbang_send b w) =
  log w ++ map (fun i => pulse_event (line 2 w) (line 3 w) (Z.testbit b i))
               [7; 6; 5; 4; 3; 2; 1; 0].
Proof.
  unfold spi_bitbang_send. change (Z.to_nat (BIT_SHIFT + 1)) with 8%nat.
  rewrite send_loop_log by lia.
  f_equal. cbn [seq map]. rewrite !u8_testbit by lia. reflexivity.
Qed.

Lemma log_send_selected (b : Z) (w : world) :
  line 2 w = false -> line 3 w = false ->
  log (spi_bitbang_send b w) = log w ++ byte_out b.
Proof.
  intros H2 H3. rewrite log_send, H2, H3. reflexivity.
Qed.

Lemma line_send (b : Z) (w : world) (j : Z) :
  2 <= j < 8 -> line j (spi_bitbang_send b w) = line j w.
Proof. apply send_loop_lines. Qed.

(** *** Receiving *)

Lemma line_miso_read (j : Z) (w : world) :
  line j (snd (miso_read w)) = line j w.
Proof. reflexivity. Qed.

Lemma log_miso_read (w : world) : log (snd (miso_read w)) = log w.
Proof. reflexivity. Qed.

Lemma read_loop_step (n : nat) (byte : Z) (w : world) :
  read_loop (S n) byte w =
  read_loop n (u8 (Z.lor byte (Z.shiftl (fst (miso_read (pulse w))) (Z.of_nat n))))
            (snd (miso_read (pulse w))).
Proof. reflexivity. Qed.

Lemma read_loop_lines (n : nat) : forall (byte : Z) (w : world) (j : Z),
  0 <= j < 8 -> j <> 1 -> line j (snd (read_loop n byte w)) = line j w.
Proof.
  induction n as [| n IH]; intros byte w j Hj H1; [reflexivity |].
  rewrite read_loop_step, IH by lia.
  rewrite line_miso_read, line_pulse by lia.
  destruct (Z.eqb_spec j 1); [lia | reflexivity].
Qed.

Lemma read_loop_log (n : nat) : forall (byte : Z) (w : world),
  log (snd (read_loop n byte w)) =
  log w ++ repeat (pulse_event (line 2 w) (line 3 w) (line 0 w)) n.
Proof.
  induction n as [| n IH]; intros byte w.
  - cbn. rewrite app_nil_r. reflexivity.
  - rewrite read_loop_step, IH.
    rewrite log_miso_read, !line_miso_read, log_pulse, !line_pulse by lia.
    cbn [Z.eqb Pos.eqb repeat]. rewrite <- app_assoc. reflexivity.
Qed.

Lemma log_read (w : world) :
  log (snd (spi_bitbang_read w)) =
  log w ++ repeat (pulse_event (line 2 w) (line 3 w) (line 0 w)) 8.
Proof. apply read_loop_log. Qed.

Lemma line_read (w : world) (j : Z) :
  0 <= j < 8 -> j <> 1 -> line j (snd (spi_bitbang_read w)) = line j w.
Proof. apply read_loop_lines. Qed.

(** *** Dummy cycles *)

Lemma dummy_loop_lines (n : nat) : forall (w : world) (j : Z),
  0 <= j < 8 -> j <> 1 -> line j (dummy_loop n w) = line j w.
Proof.
  induction n as [| n IH]; intros w j Hj H1; [reflexivity |].
  cbn [dummy_loop]. fold (pulse w). rewrite IH, line_pulse by lia.
  destruct (Z.eqb_spec j 1); [lia | reflexivity].
Qed.

Lemma dummy_loop_log (n : nat) : forall (w : world),
  log (dummy_loop n w) =
  log w ++ repeat (pulse_event (line 2 w) (line 3 w) (line 0 w)) n.
Proof.
  induction n as [| n IH]; intros w.
  - cbn. rewrite app_nil_r. reflexivity.
  - cbn [dummy_loop]. fold (pulse w).
    rewrite IH, log_pulse, !line_pulse by lia.
    cbn [Z.eqb Pos.eqb repeat]. rewrite <- app_assoc. reflexivity.
Qed.

End Framing.

(** ** Transaction phases *)

Section Phases.

Context {P : Platform}.

Lemma log_set_data (i : Z) (b : bool) (w : world) :
  i = 0 \/ i = 3 -> log (set_line i b w) = log w.
Proof.
  intros Hi. rewrite log_set_line by lia.
  destruct Hi as [-> | ->]; cbn [Z.eqb Pos.eqb];
    destruct (line 2 w), (line 1 w); cbn; apply app_nil_r.
Qed.

Lemma log_set_cs (b : bool) (w : world) :
  log (set_line 2 b w) =
  log w ++ (if line 2 w then (if b then [] else [Select])
            else (if b then [Deselect] else [])).
Proof.
  rewrite log_set_line by lia. cbn [Z.eqb Pos.eqb]. f_equal.
  destruct (line 2 w), (line 1 w), b; reflexivity.
Qed.

Lemma line_write_command (op : Z) (w : world) (j : Z) :
  2 <= j < 8 ->
  line j (write_command op w) = if j <? 4 then false else line j w.
Proof.
  intros Hj. unfold write_command, dummy_cycles.
  rewrite line_send, cs_low_eq, line_set_line by lia.
  rewrite dummy_loop_lines, enable_low_eq, line_set_line by lia.
  destruct (Z.eqb_spec j 2) as [-> | H2]; [reflexivity |].
  destruct (Z.eqb_spec j 3) as [-> | H3]; [reflexivity |].
  destruct (Z.ltb_spec j 4); [lia | reflexivity].
Qed.

Lemma log_write_command_gen (op : Z) (w : world) :
  log (write_command op w) =
  log w ++ repeat (pulse_event (line 2 w) false (line 0 w)) 8
        ++ (if line 2 w then [Select] else []) ++ byte_out op.
Proof.
  unfold write_command, dummy_cycles.
  rewrite log_send, !cs_low_eq, !line_set_line by lia.
  rewrite log_set_cs, !dummy_loop_lines by lia.
  rewrite dummy_loop_log, !enable_low_eq, !line_set_line by lia.
  rewrite log_set_data by lia.
  cbn [Z.eqb Pos.eqb]. change (Z.to_nat DUMMY_CYCLES) with 8%nat.
  rewrite <- !app_assoc. reflexivity.
Qed.

Lemma log_write_command (op : Z) (w : world) :
  deselected w -> log (write_command op w) = log w ++ command op.
Proof.
  intros Hd. rewrite log_write_command_gen. unfold deselected in Hd.
  rewrite Hd. reflexivity.
Qed.

(** *** Address *)

Lemma u32_byte_le (a i : Z) :
  0 <= i < 4 ->
  u32_byte LittleEndian (u32 a) i = Z.land (Z.shiftr a (8 * i)) 255.
Proof.
  intros Hi. unfold u32_byte. apply Z.bits_inj'. intros j Hj.
  rewrite !Z.land_spec. destruct (Z_lt_ge_dec j 8) as [Hlt | Hge].
  - rewrite !Z.shiftr_spec by lia. f_equal.
    unfold u32. rewrite !Z.land_spec.
    change 4294967295 with (Z.ones 32). rewrite Z.ones_spec_low by lia.
    rewrite !andb_true_r. reflexivity.
  - change 255 with (Z.ones 8). rewrite Z.ones_spec_high by lia.
    rewrite !andb_false_r. reflexivity.
Qed.

Lemma line_write_address (a : Z) (w : world) (j : Z) :
  2 <= j < 8 -> line j (write_address a w) = line j w.
Proof.
  intros Hj. unfold write_address.
  change (Z.to_nat ADDRESS_SIZE) with 3%nat. cbn [address_loop].
  rewrite !line_send by lia. reflexivity.
Qed.

Lemma log_write_address (a : Z) (w : world) :
  byte_order = LittleEndian -> line 2 w = false -> line 3 w = false ->
  log (write_address a w) = log w ++ address_out a.
Proof.
  intros He H2 H3. unfold write_address.
  change (Z.to_nat ADDRESS_SIZE) with 3%nat. cbn [address_loop].
  rewrite He.
  rewrite !log_send_selected by (rewrite ?line_send by lia; assumption).
  rewrite !u32_byte_le by (cbn; lia).
  unfold address_out, bytes_out. cbn [flat_map Z.of_nat Z.mul Pos.mul Pos.of_succ_nat Pos.succ].
  rewrite Z.shiftr_0_r, app_nil_r, <- !app_assoc. reflexivity.
Qed.

(** *** Payload *)

Lemma write_data_loop_lines (l : list Z) : forall (w : world) (j : Z),
  2 <= j < 8 -> line j (write_data_loop l w) = line j w.
Proof.
  induction l as [| d l IH]; intros w j Hj; [reflexivity |].
  cbn [write_data_loop]. rewrite IH, line_send by lia. reflexivity.
Qed.

Lemma write_data_loop_log (l : list Z) : forall (w : world),
  line 2 w = false -> line 3 w = false ->
  log (write_data_loop l w) = log w ++ bytes_out l.
Proof.
  induction l as [| d l IH]; intros w H2 H3.
  - cbn. rewrite app_nil_r. reflexivity.
  - cbn [write_data_loop]. rewrite IH by (rewrite line_send by lia; assumption).
    rewrite log_send_selected by assumption.
    unfold bytes_out. cbn [flat_map]. rewrite <- app_assoc. reflexivity.
Qed.

Lemma line_write_data (l : list Z) (len : Z) (w : world) (j : Z) :
  2 <= j < 8 ->
  line j (write_data l len w) = if j =? 3 then false else line j w.
Proof.
  intros Hj. unfold write_data.
  rewrite write_data_loop_lines, enable_low_eq, line_set_line by lia.
  reflexivity.
Qed.

Lemma log_write_data (l : list Z) (len : Z) (w : world) :
  line 2 w = false ->
  log (write_data l len w) =
  log w ++ bytes_out (firstn (Z.to_nat (to_int len)) l).
Proof.
  intros H2. unfold write_data. rewrite enable_low_eq.
  rewrite write_data_loop_log
    by (rewrite line_set_line by lia; cbn [Z.eqb Pos.eqb]; trivial).
  rewrite log_set_data by lia. reflexivity.
Qed.

Lemma bytes_in_S (n : nat) : bytes_in (S n) = repeat In 8 ++ bytes_in n.
Proof.
  unfold bytes_in. replace (8 * S n)%nat with (8 + 8 * n)%nat by lia.
  apply repeat_app.
Qed.

Lemma read_data_loop_lines (n : nat) : forall (w : world) (j : Z),
  0 <= j < 8 -> j <> 1 -> line j (snd (read_data_loop n w)) = line j w.
Proof.
  induction n as [| n IH]; intros w j Hj H1; [reflexivity |].
  cbn [read_data_loop snd]. rewrite IH, line_read by lia. reflexivity.
Qed.

Lemma read_data_loop_log (n : nat) : forall (w : world),
  line 2 w = false -> line 3 w = true ->
  log (snd (read_data_loop n w)) = log w ++ bytes_in n.
Proof.
  induction n as [| n IH]; intros w H2 H3.
  - cbn. rewrite app_nil_r. reflexivity.
  - cbn [read_data_loop snd].
    rewrite IH by (rewrite line_read by lia; assumption).
    rewrite log_read, H2, H3, bytes_in_S, <- app_assoc. reflexivity.
Qed.

Lemma read_data_loop_length (n : nat) : forall (w : world),
  length (fst (read_data_loop n w)) = n.
Proof.
  induction n as [| n IH]; intros w; [reflexivity |].
  cbn [read_data_loop fst length]. rewrite IH. reflexivity.
Qed.

Lemma line_read_data (n : Z) (w : world) (j : Z) :
  2 <= j < 8 ->
  line j (snd (read_data n w)) = if j =? 3 then true else line j w.
Proof.
  intros Hj. unfold read_data.
  rewrite read_data_loop_lines, enable_high_eq, line_set_line by lia.
  reflexivity.
Qed.

Lemma log_read_data (n : Z) (w : world) :
  line 2 w = false ->
  log (snd (read_data n w)) = log w ++ bytes_in (Z.to_nat (to_int n)).
Proof.
  intros H2. unfold read_data. rewrite enable_high_eq.
  rewrite read_data_loop_log
    by (rewrite line_set_line by lia; cbn [Z.eqb Pos.eqb]; trivial).
  rewrite log_set_data by lia. reflexivity.
Qed.

(** *** Register read *)

Lemma read_reg_deselects (op : Z) (n : nat) (w : world) :
  deselected (snd (spi_flash_nor_read_reg op n w)).
Proof.
  unfold deselected, spi_flash_nor_read_reg. cbn [snd].
  rewrite cs_high_eq, line_set_line by lia. reflexivity.
Qed.

Lemma int_count_small (n : nat) :
  Z.of_nat n < 2147483648 -> int_count n = n.
Proof.
  intros Hn. unfold int_count, to_int, to_signed.
  change (2 ^ (32 - 1)) with 2147483648. change (2 ^ 32) with 4294967296.
  rewrite Z.mod_small by lia.
  replace (Z.of_nat n + 2147483648 - 2147483648) with (Z.of_nat n) by lia.
  apply Nat2Z.id.
Qed.

Lemma int_count_1 : int_count 1 = 1%nat.
Proof. reflexivity. Qed.

Lemma log_read_reg (op : Z) (n : nat) (w : world) :
  deselected w ->
  log (snd (spi_flash_nor_read_reg op n w)) =
  log w ++ read_frame op (int_count n).
Proof.
  intros Hd. unfold spi_flash_nor_read_reg. cbn [snd].
  rewrite cs_high_eq, log_set_cs.
  rewrite line_read_data, line_write_command by lia.
  cbn [Z.eqb Pos.eqb Z.ltb Z.compare Pos.compare Pos.compare_cont].
  rewrite log_read_data by (rewrite line_write_command by lia; reflexivity).
  rewrite log_write_command by assumption.
  unfold read_frame. rewrite <- !app_assoc. reflexivity.
Qed.

Lemma snd_read_status (reg : Z) (w : world) :
  snd (read_status reg w) = snd (spi_flash_nor_read_reg reg 1 w).
Proof. unfold read_status. cbn [snd]. reflexivity. Qed.

Lemma read_status_deselects (reg : Z) (w : world) :
  deselected (snd (read_status reg w)).
Proof. rewrite snd_read_status. exact (read_reg_deselects reg 1 w). Qed.

Lemma log_read_status (reg : Z) (w : world) :
  deselected w -> log (snd (read_status reg w)) = log w ++ read_frame reg 1.
Proof.
  intros Hd. rewrite snd_read_status, (log_read_reg reg 1 w Hd), int_count_1.
  reflexivity.
Qed.

End Phases.

(** ** Busy polling *)

Section Busy.

Context {P : Platform}.

Lemma clock_miso_read (w : world) : clock (snd (miso_read w)) = clock w + 1.
Proof. reflexivity. Qed.

Lemma clock_send_loop (n : nat) : forall (c : Z) (w : world),
  clock (send_loop n c w) = clock w + 6 * Z.of_nat n.
Proof.
  induction n as [| n IH]; intros c w.
  - cbn [send_loop]. lia.
  - rewrite send_loop_step, IH, clock_pulse, clock_set_line. lia.
Qed.

Lemma clock_read_loop (n : nat) : forall (byte : Z) (w : world),
  clock (snd (read_loop n byte w)) = clock w + 5 * Z.of_nat n.
Proof.
  induction n as [| n IH]; intros byte w.
  - cbn [read_loop snd]. lia.
  - rewrite read_loop_step, IH, clock_miso_read, clock_pulse. lia.
Qed.

Lemma clock_dummy_loop (n : nat) : forall (w : world),
  clock (dummy_loop n w) = clock w + 4 * Z.of_nat n.
Proof.
  induction n as [| n IH]; intros w.
  - cbn [dummy_loop]. lia.
  - cbn [dummy_loop]. fold (pulse w). rewrite IH, clock_pulse. lia.
Qed.

Lemma clock_write_command (op : Z) (w : world) :
  clock (write_command op w) = clock w + 84.
Proof.
  unfold write_command, spi_bitbang_send, dummy_cycles.
  rewrite clock_send_loop, cs_low_eq, clock_set_line, clock_dummy_loop.
  rewrite enable_low_eq, clock_set_line.
  change (Z.to_nat (BIT_SHIFT + 1)) with 8%nat.
  change (Z.to_nat DUMMY_CYCLES) with 8%nat. lia.
Qed.

Lemma clock_read_data_loop (n : nat) : forall (w : world),
  clock (snd (read_data_loop n w)) = clock w + 40 * Z.of_nat n.
Proof.
  induction n as [| n IH]; intros w.
  - cbn [read_data_loop snd]. lia.
  - cbn [read_data_loop snd]. rewrite IH. unfold spi_bitbang_read.
    rewrite clock_read_loop. change (Z.to_nat (BIT_SHIFT + 1)) with 8%nat. lia.
Qed.

Lemma clock_read_status (reg : Z) (w : world) :
  clock (snd (read_status reg w)) = clock w + 128.
Proof.
  unfold read_status, spi_flash_nor_read_reg, read_data. cbn [snd].
  change (Z.to_nat (to_int (Z.of_nat 1))) with 1%nat.
  rewrite cs_high_eq, clock_set_line, clock_read_data_loop.
  rewrite enable_high_eq, clock_set_line, clock_write_command. lia.
Qed.

Lemma clock_get_jiffies (w : world) : clock (snd (get_jiffies w)) = clock w.
Proof. reflexivity. Qed.

Lemma fst_get_jiffies (w : world) : fst (get_jiffies w) = jiffies_of (clock w).
Proof. reflexivity. Qed.

Lemma clock_poll_step (reg : Z) (w : world) :
  clock (poll_step reg w) = clock w + 128.
Proof.
  unfold poll_step. rewrite clock_get_jiffies. apply clock_read_status.
Qed.

Lemma poll_time_eq (reg : Z) (w : world) :
  poll_time reg w = jiffies_of (clock w + 128).
Proof.
  unfold poll_time. rewrite fst_get_jiffies, clock_read_status. reflexivity.
Qed.

(** One iteration of the loop, in the vocabulary of polls. *)
Lemma busy_loop_step (fuel : nat) (end_ reg flag : Z) (w : world) :
  busy_loop (S fuel) end_ reg flag w =
  if still_busy reg flag w then
    if time_after (poll_time reg w) end_
    then Some (- ETIMEDOUT, poll_step reg w)
    else busy_loop fuel end_ reg flag (poll_step reg w)
  else Some (0, snd (read_status reg w)).
Proof.
  cbn [busy_loop]. unfold still_busy, status_of, poll_time, poll_step.
  reflexivity.
Qed.

(** The loop in closed form: [n] polls not after the deadline, then the
    deciding one. *)
Lemma busy_loop_closed (n : nat) : forall (fuel : nat) (end_ reg flag : Z)
  (w : world),
  (n < fuel)%nat ->
  (forall k, (k < n)%nat ->
     still_busy reg flag (polls reg k w) = true /\
     time_after (poll_time reg (polls reg k w)) end_ = false) ->
  (still_busy reg flag (polls reg n w) = true ->
   time_after (poll_time reg (polls reg n w)) end_ = true) ->
  busy_loop fuel end_ reg flag w =
  Some (if still_busy reg flag (polls reg n w)
        then (- ETIMEDOUT, poll_step reg (polls reg n w))
        else (0, snd (read_status reg (polls reg n w)))).
Proof.
  induction n as [| n IH]; intros fuel end_ reg flag w Hf Hk Hn.
  - destruct fuel as [| fuel]; [lia |]. rewrite busy_loop_step.
    cbn [polls] in *. destruct (still_busy reg flag w); [| reflexivity].
    rewrite (Hn eq_refl). reflexivity.
  - destruct fuel as [| fuel]; [lia |]. rewrite busy_loop_step.
    destruct (Hk 0%nat ltac:(lia)) as [Hb Ht]. cbn [polls] in Hb, Ht.
    rewrite Hb, Ht.
    cbn [polls]. apply IH; [lia | | exact Hn].
    intros k Hlt. apply (Hk (S k)). lia.
Qed.

(** *** The comparison of times on a counter that wraps *)

Lemma time_after_spec (a b : Z) :
  0 < BITS_PER_LONG ->
  time_after a b = (2 ^ (BITS_PER_LONG - 1) <=? (b - a) mod 2 ^ BITS_PER_LONG).
Proof.
  intros HL. unfold time_after, to_long, to_signed, ulong.
  assert (HM : 2 ^ BITS_PER_LONG = 2 * 2 ^ (BITS_PER_LONG - 1)).
  { replace BITS_PER_LONG with (Z.succ (BITS_PER_LONG - 1)) at 1 by lia.
    apply Z.pow_succ_r. lia. }
  assert (HH : 0 < 2 ^ (BITS_PER_LONG - 1)) by (apply Z.pow_pos_nonneg; lia).
  set (H := 2 ^ (BITS_PER_LONG - 1)) in *. rewrite HM.
  set (d := (b - a) mod (2 * H)).
  assert (Hd : 0 <= d < 2 * H) by (apply Z.mod_pos_bound; lia).
  destruct (Z.leb_spec H d) as [Hle | Hlt].
  - replace (d + H) with (d - H + 1 * (2 * H)) by lia.
    rewrite Z.mod_add by lia. rewrite Z.mod_small by lia.
    apply Z.ltb_lt. lia.
  - rewrite Z.mod_small by lia. apply Z.ltb_ge. lia.
Qed.

(** Between two times that are less than half the range of the counter
    apart, [time_after] is the plain comparison. *)
Lemma time_after_near (a b : Z) :
  0 < BITS_PER_LONG ->
  - 2 ^ (BITS_PER_LONG - 1) <= b - a < 2 ^ (BITS_PER_LONG - 1) ->
  time_after a b = (b <? a).
Proof.
  intros HL Hab. rewrite time_after_spec by exact HL.
  assert (HM : 2 ^ BITS_PER_LONG = 2 * 2 ^ (BITS_PER_LONG - 1)).
  { replace BITS_PER_LONG with (Z.succ (BITS_PER_LONG - 1)) at 1 by lia.
    apply Z.pow_succ_r. lia. }
  set (H := 2 ^ (BITS_PER_LONG - 1)) in *. rewrite HM.
  destruct (Z.ltb_spec b a) as [Hlt | Hge].
  - replace (b - a) with (b - a + 2 * H + (-1) * (2 * H)) by lia.
    rewrite Z.mod_add by lia. rewrite Z.mod_small by lia.
    apply Z.leb_le. lia.
  - rewrite Z.mod_small by lia. apply Z.leb_gt. lia.
Qed.

(** A reading taken more than the delay, and at most the delay and half
    the range of the counter, after the entry is after the deadline. *)
Lemma time_after_window (j0 m s : Z) :
  0 < BITS_PER_LONG ->
  0 < s - j0 - m mod 2 ^ BITS_PER_LONG <= 2 ^ (BITS_PER_LONG - 1) ->
  time_after (s mod 2 ^ BITS_PER_LONG)
             (ulong (j0 mod 2 ^ BITS_PER_LONG + m)) = true.
Proof.
  intros HL Hx. rewrite time_after_spec by exact HL. unfold ulong.
  assert (HM : 2 ^ BITS_PER_LONG = 2 * 2 ^ (BITS_PER_LONG - 1)).
  { replace BITS_PER_LONG with (Z.succ (BITS_PER_LONG - 1)) at 1 by lia.
    apply Z.pow_succ_r. lia. }
  assert (HH : 0 < 2 ^ (BITS_PER_LONG - 1)) by (apply Z.pow_pos_nonneg; lia).
  set (H := 2 ^ (BITS_PER_LONG - 1)) in *.
  set (M := 2 ^ BITS_PER_LONG) in *.
  set (x := s - j0 - m mod M) in *.
  assert (E : ((j0 mod M + m) mod M - s mod M) mod M = M - x).
  { pose proof (Z.div_mod j0 M ltac:(lia)) as E0.
    pose proof (Z.div_mod m M ltac:(lia)) as E1.
    pose proof (Z.div_mod s M ltac:(lia)) as E2.
    pose proof (Z.div_mod (j0 mod M + m) M ltac:(lia)) as E3.
    replace ((j0 mod M + m) mod M - s mod M)
      with (M - x + (s / M - (j0 mod M + m) / M - 1 + m / M - j0 / M) * M)
      by (subst x; lia).
    rewrite Z.mod_add by lia. apply Z.mod_small. lia. }
  rewrite E. apply Z.leb_le. lia.
Qed.

(** If time goes on, the deciding poll exists. *)
Lemma deciding_poll (time reg flag : Z) (w : world) :
  clock_live ->
  exists n : nat,
    (forall k, (k < n)%nat ->
       still_busy reg flag (polls reg k (snd (get_jiffies w))) = true /\
       time_after (poll_time reg (polls reg k (snd (get_jiffies w))))
                  (deadline_of time w) = false) /\
    (still_busy reg flag (polls reg n (snd (get_jiffies w))) = true ->
     time_after (poll_time reg (polls reg n (snd (get_jiffies w))))
                (deadline_of time w) = true).
Proof.
  intros [J [HL [HJ [Hmono [Hlive Hsteady]]]]].
  unfold deadline_of. rewrite fst_get_jiffies, HJ.
  set (m := msecs_to_jiffies (u32 time)).
  assert (HMpos : 0 < 2 ^ BITS_PER_LONG) by (apply Z.pow_pos_nonneg; lia).
  pose proof (Z.mod_pos_bound m (2 ^ BITS_PER_LONG) HMpos) as Hm.
  destruct (Hlive (J (clock w) + m mod 2 ^ BITS_PER_LONG)) as [c Hc].
  assert (Hwin : forall u : world,
    J (clock u) <= J (clock w) + m mod 2 ^ BITS_PER_LONG ->
    time_after (poll_time reg u)
      (ulong (J (clock w) mod 2 ^ BITS_PER_LONG + m)) = false ->
    J (clock u + 128) <= J (clock w) + m mod 2 ^ BITS_PER_LONG).
  { intros u Hinv Ht.
    destruct (Z_le_gt_dec (J (clock u + 128))
                (J (clock w) + m mod 2 ^ BITS_PER_LONG))
      as [Hle | Hgt]; [exact Hle | exfalso].
    rewrite poll_time_eq, HJ in Ht.
    rewrite (time_after_window (J (clock w)) m (J (clock u + 128)) HL) in Ht;
      [discriminate |].
    pose proof (Hsteady (clock u)). lia. }
  assert (H : forall (g : nat) (u : world),
    c - clock u <= Z.of_nat g ->
    J (clock u) <= J (clock w) + m mod 2 ^ BITS_PER_LONG ->
    exists n : nat,
      (forall k, (k < n)%nat ->
         still_busy reg flag (polls reg k u) = true /\
         time_after (poll_time reg (polls reg k u))
           (ulong (J (clock w) mod 2 ^ BITS_PER_LONG + m)) = false) /\
      (still_busy reg flag (polls reg n u) = true ->
       time_after (poll_time reg (polls reg n u))
         (ulong (J (clock w) mod 2 ^ BITS_PER_LONG + m)) = true)).
  { induction g as [| g IH]; intros u Hg Hinv;
      destruct (still_busy reg flag u) eqn:Hb;
      try (exists 0%nat; split; [intros k Hk; lia |];
           cbn [polls]; rewrite Hb; discriminate);
      destruct (time_after (poll_time reg u)
                  (ulong (J (clock w) mod 2 ^ BITS_PER_LONG + m))) eqn:Ht;
      try (exists 0%nat; split; [intros k Hk; lia |];
           cbn [polls]; intros _; exact Ht).
    - exfalso. pose proof (Hwin u Hinv Ht) as Hle.
      pose proof (Hmono c (clock u + 128) ltac:(lia)). lia.
    - pose proof (Hwin u Hinv Ht) as Hle.
      destruct (IH (poll_step reg u)) as [n [Hk Hn]].
      { rewrite clock_poll_step. lia. }
      { rewrite clock_poll_step. exact Hle. }
      exists (S n). split; [| exact Hn].
      intros [| k] Hlt; cbn [polls].
      + split; [exact Hb | exact Ht].
      + apply Hk. lia. }
  apply (H (Z.to_nat (c - clock w))).
  - rewrite clock_get_jiffies. lia.
  - rewrite clock_get_jiffies. lia.
Qed.

(** The wait returns, with the result and the world that [waited] names,
    for every bound on the polls that is large enough. *)
Lemma busy_waited (time reg flag : Z) (w : world) :
  clock_live ->
  exists (fuel0 : nat) (r : Z) (w' : world),
    (forall fuel, (fuel0 <= fuel)%nat ->
       busy fuel time reg flag w = Some (r, w')) /\
    waited time reg flag w r w'.
Proof.
  intros Hlive.
  destruct (deciding_poll time reg flag w Hlive) as [n [Hk Hn]].
  assert (Hrun : forall fuel, (S n <= fuel)%nat ->
    busy fuel time reg flag w =
    Some (if still_busy reg flag (polls reg n (snd (get_jiffies w)))
          then (- ETIMEDOUT, poll_step reg (polls reg n (snd (get_jiffies w))))
          else (0, snd (read_status reg (polls reg n (snd (get_jiffies w))))))).
  { intros fuel Hf. unfold busy. fold (deadline_of time w).
    apply busy_loop_closed; [lia | exact Hk | exact Hn]. }
  exists (S n).
  destruct (still_busy reg flag (polls reg n (snd (get_jiffies w)))) eqn:Hb.
  - exists (- ETIMEDOUT), (poll_step reg (polls reg n (snd (get_jiffies w)))).
    split; [exact Hrun |].
    exists n. cbv zeta. rewrite Hb. auto.
  - exists 0, (snd (read_status reg (polls reg n (snd (get_jiffies w))))).
    split; [exact Hrun |].
    exists n. cbv zeta. rewrite Hb. auto.
Qed.

Lemma waited_result (time reg flag : Z) (w : world) (r : Z) (w' : world) :
  waited time reg flag w r w' -> r = 0 \/ r = - ETIMEDOUT.
Proof.
  intros [n [_ H]]. cbv zeta in H.
  destruct (still_busy reg flag _); [right | left]; tauto.
Qed.

Lemma line_get_jiffies (j : Z) (w : world) :
  line j (snd (get_jiffies w)) = line j w.
Proof. reflexivity. Qed.

Lemma log_get_jiffies (w : world) :
  log (snd (get_jiffies w)) = log w ++ [Jiffies (jiffies_of (clock w))].
Proof. reflexivity. Qed.

Lemma poll_step_deselects (reg : Z) (w : world) : deselected (poll_step reg w).
Proof.
  unfold poll_step, deselected. rewrite line_get_jiffies.
  exact (read_status_deselects reg w).
Qed.

Lemma waited_deselects (time reg flag : Z) (w : world) (r : Z) (w' : world) :
  waited time reg flag w r w' -> deselected w'.
Proof.
  intros [n [_ H]]. cbv zeta in H.
  destruct (still_busy reg flag _).
  - destruct H as [_ [_ ->]]. apply poll_step_deselects.
  - destruct H as [_ ->]. apply read_status_deselects.
Qed.

End Busy.

(** ** Whole transactions *)

Section Transactions.

Context {P : Platform}.

Lemma cs_track_app (l1 : list event) : forall (s : bus) (l2 : list event),
  cs_track s (l1 ++ l2) =
  match cs_track s l1 with
  | Some s' => cs_track s' l2
  | None => None
  end.
Proof.
  induction l1 as [| e l1 IH]; intros s l2; [reflexivity |].
  cbn [app cs_track].
  destruct e as [| | [|] | b | | j | v], s as [k | n];
    try reflexivity; try apply IH.
  - destruct (Nat.eqb k 8); [apply IH | reflexivity].
  - destruct (Nat.leb 8 n); [apply IH | reflexivity].
  - destruct (Nat.leb 8 n); [apply IH | reflexivity].
  - destruct k; [apply IH | reflexivity].
Qed.

Lemma cs_track_command (op : Z) :
  cs_track (Released 0) (command op) = Some (Selected 8).
Proof. reflexivity. Qed.

Lemma cs_track_byte_out (n : nat) (b : Z) :
  cs_track (Selected n) (byte_out b) = Some (Selected (8 + n)).
Proof. reflexivity. Qed.

Lemma cs_track_bytes_out (l : list Z) : forall n : nat,
  cs_track (Selected n) (bytes_out l) = Some (Selected (8 * length l + n)).
Proof.
  induction l as [| b l IH]; intros n; [reflexivity |].
  unfold bytes_out in *. cbn [flat_map].
  rewrite cs_track_app, cs_track_byte_out, IH. f_equal. f_equal.
  cbn [length]. lia.
Qed.

Lemma cs_track_repeat_in (k : nat) : forall n : nat,
  (8 <= n)%nat ->
  cs_track (Selected n) (repeat In k) = Some (Selected (k + n)).
Proof.
  induction k as [| k IH]; intros n Hn; [reflexivity |].
  cbn [repeat cs_track]. apply Nat.leb_le in Hn as Hb. rewrite Hb.
  rewrite IH by lia. f_equal. f_equal. lia.
Qed.

Lemma cs_track_deselect (n : nat) :
  (8 <= n)%nat -> cs_track (Selected n) [Deselect] = Some (Released 0).
Proof.
  intros Hn. cbn [cs_track]. apply Nat.leb_le in Hn. rewrite Hn. reflexivity.
Qed.

(** A frame of driven bytes after the opcode is a whole transaction. *)
Lemma cs_track_out_frame (op : Z) (l : list Z) :
  cs_track (Released 0) (command op ++ bytes_out l ++ [Deselect]) =
  Some (Released 0).
Proof.
  rewrite cs_track_app, cs_track_command, cs_track_app, cs_track_bytes_out.
  apply cs_track_deselect. lia.
Qed.

(** So is a frame of driven bytes and then sampled bytes. *)
Lemma cs_track_in_frame (op : Z) (l : list Z) (n : nat) :
  cs_track (Released 0) (command op ++ bytes_out l ++ bytes_in n ++ [Deselect]) =
  Some (Released 0).
Proof.
  rewrite cs_track_app, cs_track_command, cs_track_app, cs_track_bytes_out.
  unfold bytes_in. rewrite cs_track_app, cs_track_repeat_in by lia.
  apply cs_track_deselect. lia.
Qed.

Lemma cs_track_read_frame (op : Z) (n : nat) :
  cs_track (Released 0) (read_frame op n) = Some (Released 0).
Proof. apply (cs_track_in_frame op [] n). Qed.

(** An accepted trace holds no write of the enable register. *)
Lemma cs_track_no_enable (l : list event) : forall s s' : bus,
  cs_track s l = Some s' -> no_enable l = true.
Proof.
  induction l as [| e l IH]; intros s s' H; [reflexivity |].
  cbn [cs_track] in H. cbn [no_enable forallb].
  destruct e as [| | [|] | b | | j | v], s as [k | n];
    try discriminate; cbn [andb];
    try (eapply IH; exact H).
  - destruct (Nat.eqb k 8); [eapply IH; exact H | discriminate].
  - destruct (Nat.leb 8 n); [eapply IH; exact H | discriminate].
  - destruct (Nat.leb 8 n); [eapply IH; exact H | discriminate].
  - destruct k; [eapply IH; exact H | discriminate].
Qed.

Lemma bracketed_refl (w : world) : bracketed w w.
Proof. exists []. split; [symmetry; apply app_nil_r | reflexivity]. Qed.

Lemma bracketed_trans (w1 w2 w3 : world) :
  bracketed w1 w2 -> bracketed w2 w3 -> bracketed w1 w3.
Proof.
  intros [l1 [E1 T1]] [l2 [E2 T2]]. exists (l1 ++ l2). split.
  - rewrite E2, E1, app_assoc. reflexivity.
  - rewrite cs_track_app, T1. exact T2.
Qed.

Lemma bracketed_jiffies (w : world) : bracketed w (snd (get_jiffies w)).
Proof. exists [Jiffies (jiffies_of (clock w))]. split; reflexivity. Qed.

(** *** The transactions of the operations *)

Lemma line_cs_high (j : Z) (w : world) :
  0 <= j < 8 -> line j (cs CS_ENABLE w) = if j =? 2 then true else line j w.
Proof. intros Hj. rewrite cs_high_eq. apply line_set_line; lia. Qed.

Lemma cs_high_deselects (w : world) : deselected (cs CS_ENABLE w).
Proof. unfold deselected. rewrite line_cs_high by lia. reflexivity. Qed.

Lemma log_cs_high_selected (w : world) :
  line 2 w = false -> log (cs CS_ENABLE w) = log w ++ [Deselect].
Proof. intros H. rewrite cs_high_eq, log_set_cs, H. reflexivity. Qed.

Lemma log_write_address_gen (a : Z) (w : world) :
  line 2 w = false -> line 3 w = false ->
  log (write_address a w) = log w ++ bytes_out (address_bytes a).
Proof.
  intros H2 H3. unfold write_address.
  change (Z.to_nat ADDRESS_SIZE) with 3%nat. cbn [address_loop].
  rewrite !log_send_selected by (rewrite ?line_send by lia; assumption).
  unfold address_bytes, bytes_out. cbn [flat_map].
  rewrite app_nil_r, <- !app_assoc. reflexivity.
Qed.

Lemma log_write_enable (w : world) :
  deselected w ->
  log (write_enable w) = log w ++ command WRITE_ENABLE ++ [Deselect].
Proof.
  intros Hd. unfold write_enable.
  rewrite log_cs_high_selected by (rewrite line_write_command by lia; reflexivity).
  rewrite log_write_command by assumption. rewrite <- app_assoc. reflexivity.
Qed.

Lemma log_erase_command (nor : spi_nor) (offs : Z) (w : world) :
  deselected w ->
  log (erase_command nor offs w) =
  log w ++ command (erase_opcode nor) ++ bytes_out (address_bytes offs)
        ++ [Deselect].
Proof.
  intros Hd. unfold erase_command.
  rewrite log_cs_high_selected
    by (rewrite line_write_address, line_write_command by lia; reflexivity).
  rewrite log_write_address_gen by (rewrite line_write_command by lia; reflexivity).
  rewrite log_write_command by assumption. rewrite <- !app_assoc. reflexivity.
Qed.

Lemma log_program_command (nor : spi_nor) (to : Z) (buf : list Z) (w : world) :
  deselected w ->
  log (program_command nor to buf w) =
  log w ++ command (program_opcode nor) ++ bytes_out (address_bytes to)
        ++ bytes_out (sent_payload buf) ++ [Deselect].
Proof.
  intros Hd. unfold program_command.
  rewrite log_cs_high_selected
    by (rewrite line_write_data, line_write_address, line_write_command by lia;
        reflexivity).
  rewrite log_write_data
    by (rewrite line_write_address, line_write_command by lia; reflexivity).
  rewrite log_write_address_gen by (rewrite line_write_command by lia; reflexivity).
  rewrite log_write_command by assumption. rewrite <- !app_assoc. reflexivity.
Qed.

Lemma log_register_command (opcode : Z) (buf : list Z) (w : world) :
  deselected w ->
  log (register_command opcode buf w) =
  log w ++ command opcode ++ bytes_out (sent_payload buf) ++ [Deselect].
Proof.
  intros Hd. unfold register_command.
  rewrite log_cs_high_selected
    by (rewrite line_write_data, line_write_command by lia; reflexivity).
  rewrite log_write_data by (rewrite line_write_command by lia; reflexivity).
  rewrite log_write_command by assumption. rewrite <- !app_assoc. reflexivity.
Qed.

Lemma bytes_out_app (l1 l2 : list Z) :
  bytes_out (l1 ++ l2) = bytes_out l1 ++ bytes_out l2.
Proof. unfold bytes_out. apply flat_map_app. Qed.

Lemma transacts_bracketed (op : Z) (w w' : world) :
  transacts op w w' -> bracketed w w'.
Proof. intros [rest [E T]]. exists (command op ++ rest). split; assumption. Qed.

Lemma transacts_then (op : Z) (w1 w2 w3 : world) :
  transacts op w1 w2 -> bracketed w2 w3 -> transacts op w1 w3.
Proof.
  intros [rest [E1 T1]] [l2 [E2 T2]]. exists (rest ++ l2). split.
  - rewrite E2, E1, <- !app_assoc. reflexivity.
  - rewrite app_assoc, cs_track_app, T1. exact T2.
Qed.

Lemma transacts_write_enable (w : world) :
  deselected w -> transacts WRITE_ENABLE w (write_enable w).
Proof.
  intros Hd. exists [Deselect]. split; [apply log_write_enable; assumption |].
  apply (cs_track_out_frame WRITE_ENABLE []).
Qed.

Lemma transacts_erase_command (nor : spi_nor) (offs : Z) (w : world) :
  deselected w -> transacts (erase_opcode nor) w (erase_command nor offs w).
Proof.
  intros Hd. eexists. split; [apply log_erase_command; assumption |].
  apply cs_track_out_frame.
Qed.

Lemma transacts_program_command (nor : spi_nor) (to : Z) (buf : list Z)
  (w : world) :
  deselected w -> transacts (program_opcode nor) w (program_command nor to buf w).
Proof.
  intros Hd. eexists. split; [apply log_program_command; assumption |].
  rewrite (app_assoc (bytes_out _) (bytes_out _)), <- bytes_out_app.
  apply cs_track_out_frame.
Qed.

Lemma transacts_register_command (opcode : Z) (buf : list Z) (w : world) :
  deselected w -> transacts opcode w (register_command opcode buf w).
Proof.
  intros Hd. eexists. split; [apply log_register_command; assumption |].
  apply cs_track_out_frame.
Qed.

Lemma transacts_read_reg (op : Z) (n : nat) (w : world) :
  deselected w -> transacts op w (snd (spi_flash_nor_read_reg op n w)).
Proof.
  intros Hd. eexists. split; [apply log_read_reg; assumption |].
  apply cs_track_read_frame.
Qed.

Lemma bracketed_write_enable (w : world) :
  deselected w -> bracketed w (write_enable w).
Proof. intros Hd. eapply transacts_bracketed, transacts_write_enable, Hd. Qed.

Lemma bracketed_erase_command (nor : spi_nor) (offs : Z) (w : world) :
  deselected w -> bracketed w (erase_command nor offs w).
Proof. intros Hd. eapply transacts_bracketed, transacts_erase_command, Hd. Qed.

Lemma bracketed_program_command (nor : spi_nor) (to : Z) (buf : list Z)
  (w : world) :
  deselected w -> bracketed w (program_command nor to buf w).
Proof. intros Hd. eapply transacts_bracketed, transacts_program_command, Hd. Qed.

Lemma bracketed_register_command (opcode : Z) (buf : list Z) (w : world) :
  deselected w -> bracketed w (register_command opcode buf w).
Proof. intros Hd. eapply transacts_bracketed, transacts_register_command, Hd. Qed.

Lemma bracketed_read_reg (op : Z) (n : nat) (w : world) :
  deselected w -> bracketed w (snd (spi_flash_nor_read_reg op n w)).
Proof.
  intros Hd. eapply transacts_bracketed, transacts_read_reg, Hd.
Qed.

Lemma bracketed_read_status (reg : Z) (w : world) :
  deselected w -> bracketed w (snd (read_status reg w)).
Proof.
  intros Hd. rewrite snd_read_status. apply bracketed_read_reg. exact Hd.
Qed.

Lemma bracketed_poll_step (reg : Z) (w : world) :
  deselected w -> bracketed w (poll_step reg w).
Proof.
  intros Hd. unfold poll_step.
  eapply bracketed_trans; [apply bracketed_read_status; exact Hd |].
  apply bracketed_jiffies.
Qed.

Lemma bracketed_polls (reg : Z) (n : nat) : forall w : world,
  deselected w -> bracketed w (polls reg n w) /\ deselected (polls reg n w).
Proof.
  induction n as [| n IH]; intros w Hd.
  - split; [apply bracketed_refl | exact Hd].
  - cbn [polls]. destruct (IH (poll_step reg w) (poll_step_deselects reg w))
      as [Hb Hd']. split; [| exact Hd'].
    eapply bracketed_trans; [apply bracketed_poll_step; exact Hd | exact Hb].
Qed.

Lemma bracketed_waited (time reg flag : Z) (w : world) (r : Z) (w' : world) :
  deselected w -> waited time reg flag w r w' -> bracketed w w'.
Proof.
  intros Hd [n [_ H]]. cbv zeta in H.
  assert (Hd0 : deselected (snd (get_jiffies w))).
  { unfold deselected. rewrite line_get_jiffies. exact Hd. }
  destruct (bracketed_polls reg n _ Hd0) as [Hb Hdn].
  eapply bracketed_trans; [apply bracketed_jiffies |].
  eapply bracketed_trans; [exact Hb |].
  destruct (still_busy reg flag _).
  - destruct H as [_ [_ ->]]. apply bracketed_poll_step. exact Hdn.
  - destruct H as [_ ->]. apply bracketed_read_status. exact Hdn.
Qed.

End Transactions.

(** ** The operations that wait *)

Section Operations.

Context {P : Platform}.

Lemma to_bool_bit (c k : Z) :
  0 <= k -> to_bool (Z.land c (2 ^ k)) = Z.testbit c k.
Proof.
  intros Hk. unfold to_bool.
  assert (E : Z.land c (2 ^ k) = if Z.testbit c k then 2 ^ k else 0).
  { apply Z.bits_inj'. intros j Hj. rewrite Z.land_spec.
    rewrite Z.pow2_bits_eqb by lia.
    destruct (Z.eqb_spec k j) as [<- | Hne].
    - destruct (Z.testbit c k); [rewrite Z.pow2_bits_eqb by lia | rewrite Z.bits_0].
      + rewrite Z.eqb_refl. reflexivity.
      + reflexivity.
    - rewrite andb_false_r.
      destruct (Z.testbit c k); [rewrite Z.pow2_bits_eqb by lia | rewrite Z.bits_0].
      + symmetry. apply Z.eqb_neq. exact Hne.
      + reflexivity. }
  rewrite E. destruct (Z.testbit c k); [| reflexivity].
  destruct (Z.eqb_spec (2 ^ k) 0) as [E0 | _]; [| reflexivity].
  pose proof (Z.pow_pos_nonneg 2 k ltac:(lia) Hk). lia.
Qed.

Lemma erase_unfold (fuel : nat) (nor : spi_nor) (offs : Z) (w : world) :
  spi_flash_nor_erase fuel nor offs w =
  guarded (busy fuel TIMEOUT_MS READ_STATUS_REGISTER WORK_IN_PROGRESS
             (write_enable w)) (fun w1 =>
  guarded (busy fuel TIMEOUT_ERASE_MS READ_FLAG_STATUS_REGISTER ERASE_BUSY
             (erase_command nor offs w1)) (fun w2 =>
  guarded (busy fuel TIMEOUT_ERASE_MS READ_STATUS_REGISTER WORK_IN_PROGRESS w2)
    (fun w3 =>
  Some (Z.land (status_of READ_FLAG_STATUS_REGISTER w3) ERASE_ERR,
        snd (read_status READ_FLAG_STATUS_REGISTER w3))))).
Proof.
  unfold spi_flash_nor_erase, guarded, write_enable, erase_command, status_of.
  destruct (busy fuel TIMEOUT_MS _ _ _) as [[r1 w1] |]; [| reflexivity].
  destruct (negb (r1 =? 0)); [reflexivity |].
  destruct (busy fuel TIMEOUT_ERASE_MS READ_FLAG_STATUS_REGISTER _ _)
    as [[r2 w2] |]; [| reflexivity].
  destruct (negb (r2 =? 0)); [reflexivity |].
  destruct (busy fuel TIMEOUT_ERASE_MS READ_STATUS_REGISTER _ _)
    as [[r3 w3] |]; reflexivity.
Qed.

Lemma write_unfold (fuel : nat) (nor : spi_nor) (to : Z) (buf : list Z)
  (w : world) :
  spi_flash_nor_write fuel nor to buf w =
  guarded (busy fuel TIMEOUT_MS READ_STATUS_REGISTER WORK_IN_PROGRESS
             (write_enable w)) (fun w1 =>
  guarded (busy fuel TIMEOUT_MS READ_STATUS_REGISTER WORK_IN_PROGRESS
             (program_command nor to buf w1)) (fun w2 =>
  Some (if Z.testbit (status_of READ_FLAG_STATUS_REGISTER w2) 4
        then - EINVAL else to_long (Z.of_nat (length buf)),
        snd (read_status READ_FLAG_STATUS_REGISTER w2)))).
Proof.
  unfold spi_flash_nor_write, guarded, write_enable, program_command, status_of.
  destruct (busy fuel TIMEOUT_MS _ _ _) as [[r1 w1] |]; [| reflexivity].
  destruct (negb (r1 =? 0)); [reflexivity |].
  destruct (busy fuel TIMEOUT_MS _ _ _) as [[r2 w2] |]; [| reflexivity].
  destruct (negb (r2 =? 0)); [reflexivity |].
  change PROGRAM_ERR with (2 ^ 4). rewrite to_bool_bit by lia.
  destruct (Z.testbit _ 4); reflexivity.
Qed.

Lemma write_reg_unfold (fuel : nat) (opcode : Z) (buf : list Z) (w : world) :
  spi_flash_nor_write_reg fuel opcode buf w =
  guarded (busy fuel TIMEOUT_MS READ_STATUS_REGISTER WORK_IN_PROGRESS
             (write_enable w)) (fun w1 =>
  guarded (busy fuel TIMEOUT_MS READ_STATUS_REGISTER WORK_IN_PROGRESS
             (register_command opcode buf w1)) (fun w2 => Some (0, w2))).
Proof.
  unfold spi_flash_nor_write_reg, guarded, write_enable, register_command.
  destruct (busy fuel TIMEOUT_MS _ _ _) as [[r1 w1] |]; [| reflexivity].
  destruct (negb (r1 =? 0)); [reflexivity |].
  destruct (busy fuel TIMEOUT_MS _ _ _) as [[r2 w2] |]; reflexivity.
Qed.

(** A wait followed by code that returns, returns. *)
Lemma guarded_run (time reg flag : Z) (w0 : world)
  (cont : nat -> world -> option (Z * world))
  (K : world -> Z -> world -> Prop) :
  clock_live ->
  (forall w1, exists (f : nat) (r : Z) (w' : world),
     (forall fuel, (f <= fuel)%nat -> cont fuel w1 = Some (r, w')) /\
     K w1 r w') ->
  exists (f : nat) (r : Z) (w' : world),
    (forall fuel, (f <= fuel)%nat ->
       guarded (busy fuel time reg flag w0) (cont fuel) = Some (r, w')) /\
    after_wait time reg flag w0 r w' (fun w1 => K w1 r w').
Proof.
  intros Hlive Hcont.
  destruct (busy_waited time reg flag w0 Hlive) as [f1 [r1 [w1 [Hrun Hw]]]].
  destruct (Z.eqb_spec r1 0) as [E | NE].
  - destruct (Hcont w1) as [f2 [r [w' [Hrun2 HK]]]].
    exists (Nat.max f1 f2), r, w'. split.
    + intros fuel Hf. rewrite Hrun by lia. unfold guarded.
      rewrite E. cbn [Z.eqb negb]. apply Hrun2. lia.
    + exists r1, w1. split; [exact Hw |]. right. split; assumption.
  - exists f1, (- ETIMEDOUT), w1. split.
    + intros fuel Hf. rewrite Hrun by lia. unfold guarded.
      destruct (Z.eqb_spec r1 0); [contradiction | reflexivity].
    + exists r1, w1. split; [exact Hw |]. left. auto.
Qed.

Lemma erase_runs (nor : spi_nor) (offs : Z) (w : world) :
  clock_live ->
  exists (f : nat) (r : Z) (w' : world),
    (forall fuel, (f <= fuel)%nat ->
       spi_flash_nor_erase fuel nor offs w = Some (r, w')) /\
    erase_outcome nor offs w r w'.
Proof.
  intros Hlive.
  destruct (guarded_run TIMEOUT_MS READ_STATUS_REGISTER WORK_IN_PROGRESS
    (write_enable w)
    (fun fuel w1 =>
       guarded (busy fuel TIMEOUT_ERASE_MS READ_FLAG_STATUS_REGISTER ERASE_BUSY
                  (erase_command nor offs w1)) (fun w2 =>
       guarded (busy fuel TIMEOUT_ERASE_MS READ_STATUS_REGISTER
                  WORK_IN_PROGRESS w2) (fun w3 =>
       Some (Z.land (status_of READ_FLAG_STATUS_REGISTER w3) ERASE_ERR,
             snd (read_status READ_FLAG_STATUS_REGISTER w3)))))
    (fun w1 r w' =>
       after_wait TIMEOUT_ERASE_MS READ_FLAG_STATUS_REGISTER ERASE_BUSY
         (erase_command nor offs w1) r w' (fun w2 =>
       after_wait TIMEOUT_ERASE_MS READ_STATUS_REGISTER WORK_IN_PROGRESS
         w2 r w' (fun w3 =>
       r = Z.land (status_of READ_FLAG_STATUS_REGISTER w3) ERASE_ERR /\
       w' = snd (read_status READ_FLAG_STATUS_REGISTER w3))))
    Hlive) as [f [r [w' [Hrun Hout]]]].
  { intros w1.
    apply (guarded_run TIMEOUT_ERASE_MS READ_FLAG_STATUS_REGISTER ERASE_BUSY
      (erase_command nor offs w1)
      (fun fuel w2 =>
         guarded (busy fuel TIMEOUT_ERASE_MS READ_STATUS_REGISTER
                    WORK_IN_PROGRESS w2) (fun w3 =>
         Some (Z.land (status_of READ_FLAG_STATUS_REGISTER w3) ERASE_ERR,
               snd (read_status READ_FLAG_STATUS_REGISTER w3))))
      (fun w2 r w' =>
         after_wait TIMEOUT_ERASE_MS READ_STATUS_REGISTER WORK_IN_PROGRESS
           w2 r w' (fun w3 =>
         r = Z.land (status_of READ_FLAG_STATUS_REGISTER w3) ERASE_ERR /\
         w' = snd (read_status READ_FLAG_STATUS_REGISTER w3)))
      Hlive).
    intros w2.
    apply (guarded_run TIMEOUT_ERASE_MS READ_STATUS_REGISTER WORK_IN_PROGRESS
      w2
      (fun _ w3 =>
         Some (Z.land (status_of READ_FLAG_STATUS_REGISTER w3) ERASE_ERR,
               snd (read_status READ_FLAG_STATUS_REGISTER w3)))
      (fun w3 r w' =>
         r = Z.land (status_of READ_FLAG_STATUS_REGISTER w3) ERASE_ERR /\
         w' = snd (read_status READ_FLAG_STATUS_REGISTER w3))
      Hlive).
    intros w3. exists 0%nat. eexists. eexists. split; [reflexivity | split; reflexivity]. }
  exists f, r, w'. split; [| exact Hout].
  intros fuel Hf. rewrite erase_unfold. apply Hrun. exact Hf.
Qed.

Lemma write_runs (nor : spi_nor) (to : Z) (buf : list Z) (w : world) :
  clock_live ->
  exists (f : nat) (r : Z) (w' : world),
    (forall fuel, (f <= fuel)%nat ->
       spi_flash_nor_write fuel nor to buf w = Some (r, w')) /\
    write_outcome nor to buf w r w'.
Proof.
  intros Hlive.
  destruct (guarded_run TIMEOUT_MS READ_STATUS_REGISTER WORK_IN_PROGRESS
    (write_enable w)
    (fun fuel w1 =>
       guarded (busy fuel TIMEOUT_MS READ_STATUS_REGISTER WORK_IN_PROGRESS
                  (program_command nor to buf w1)) (fun w2 =>
       Some (if Z.testbit (status_of READ_FLAG_STATUS_REGISTER w2) 4
             then - EINVAL else to_long (Z.of_nat (length buf)),
             snd (read_status READ_FLAG_STATUS_REGISTER w2))))
    (fun w1 r w' =>
       after_wait TIMEOUT_MS READ_STATUS_REGISTER WORK_IN_PROGRESS
         (program_command nor to buf w1) r w' (fun w2 =>
       r = (if Z.testbit (status_of READ_FLAG_STATUS_REGISTER w2) 4
            then - EINVAL else to_long (Z.of_nat (length buf))) /\
       w' = snd (read_status READ_FLAG_STATUS_REGISTER w2)))
    Hlive) as [f [r [w' [Hrun Hout]]]].
  { intros w1.
    apply (guarded_run TIMEOUT_MS READ_STATUS_REGISTER WORK_IN_PROGRESS
      (program_command nor to buf w1)
      (fun _ w2 =>
         Some (if Z.testbit (status_of READ_FLAG_STATUS_REGISTER w2) 4
               then - EINVAL else to_long (Z.of_nat (length buf)),
               snd (read_status READ_FLAG_STATUS_REGISTER w2)))
      (fun w2 r w' =>
         r = (if Z.testbit (status_of READ_FLAG_STATUS_REGISTER w2) 4
              then - EINVAL else to_long (Z.of_nat (length buf))) /\
         w' = snd (read_status READ_FLAG_STATUS_REGISTER w2))
      Hlive).
    intros w2. exists 0%nat. eexists. eexists. split; [reflexivity | split; reflexivity]. }
  exists f, r, w'. split; [| exact Hout].
  intros fuel Hf. rewrite write_unfold. apply Hrun. exact Hf.
Qed.

Lemma write_reg_runs (opcode : Z) (buf : list Z) (w : world) :
  clock_live ->
  exists (f : nat) (r : Z) (w' : world),
    (forall fuel, (f <= fuel)%nat ->
       spi_flash_nor_write_reg fuel opcode buf w = Some (r, w')) /\
    write_reg_outcome opcode buf w r w'.
Proof.
  intros Hlive.
  destruct (guarded_run TIMEOUT_MS READ_STATUS_REGISTER WORK_IN_PROGRESS
    (write_enable w)
    (fun fuel w1 =>
       guarded (busy fuel TIMEOUT_MS READ_STATUS_REGISTER WORK_IN_PROGRESS
                  (register_command opcode buf w1)) (fun w2 => Some (0, w2)))
    (fun w1 r w' =>
       after_wait TIMEOUT_MS READ_STATUS_REGISTER WORK_IN_PROGRESS
         (register_command opcode buf w1) r w' (fun w2 => r = 0 /\ w' = w2))
    Hlive) as [f [r [w' [Hrun Hout]]]].
  { intros w1.
    apply (guarded_run TIMEOUT_MS READ_STATUS_REGISTER WORK_IN_PROGRESS
      (register_command opcode buf w1)
      (fun _ w2 => Some (0, w2))
      (fun w2 r w' => r = 0 /\ w' = w2)
      Hlive).
    intros w2. exists 0%nat. eexists. eexists. split; [reflexivity | split; reflexivity]. }
  exists f, r, w'. split; [| exact Hout].
  intros fuel Hf. rewrite write_reg_unfold. apply Hrun. exact Hf.
Qed.

(** *** What every outcome keeps *)

Lemma after_wait_deselects (time reg flag : Z) (w : world) (r : Z)
  (w' : world) (k : world -> Prop) :
  after_wait time reg flag w r w' k ->
  (forall w1, deselected w1 -> k w1 -> deselected w') ->
  deselected w'.
Proof.
  intros [r1 [w1 [Hw [[_ [_ ->]] | [_ Hk]]]]] Hcont.
  - exact (waited_deselects _ _ _ _ _ _ Hw).
  - exact (Hcont w1 (waited_deselects _ _ _ _ _ _ Hw) Hk).
Qed.

Lemma after_wait_bracketed (time reg flag : Z) (w : world) (r : Z)
  (w' : world) (k : world -> Prop) :
  deselected w ->
  after_wait time reg flag w r w' k ->
  (forall w1, deselected w1 -> k w1 -> bracketed w1 w') ->
  bracketed w w'.
Proof.
  intros Hd [r1 [w1 [Hw [[_ [_ ->]] | [_ Hk]]]]] Hcont.
  - exact (bracketed_waited _ _ _ _ _ _ Hd Hw).
  - eapply bracketed_trans; [exact (bracketed_waited _ _ _ _ _ _ Hd Hw) |].
    exact (Hcont w1 (waited_deselects _ _ _ _ _ _ Hw) Hk).
Qed.

Lemma write_enable_deselects (w : world) : deselected (write_enable w).
Proof. apply cs_high_deselects. Qed.

Lemma erase_command_deselects (nor : spi_nor) (offs : Z) (w : world) :
  deselected (erase_command nor offs w).
Proof. apply cs_high_deselects. Qed.

Lemma program_command_deselects (nor : spi_nor) (to : Z) (buf : list Z)
  (w : world) : deselected (program_command nor to buf w).
Proof. apply cs_high_deselects. Qed.

Lemma register_command_deselects (opcode : Z) (buf : list Z) (w : world) :
  deselected (register_command opcode buf w).
Proof. apply cs_high_deselects. Qed.

End Operations.

(** ** Control-register bits *)

Section ControlBits.

Context {P : Platform}.

Lemma set_line_touches_only (i : Z) (b : bool) (w : world) :
  0 <= i -> touches_only i (set_line i b) w.
Proof.
  intros Hi j Hj Hne. fold (line j (set_line i b w)). fold (line j w).
  rewrite line_set_line by lia.
  destruct (Z.eqb_spec j i); [contradiction | reflexivity].
Qed.

Lemma set_line_sets (i : Z) (b : bool) (w : world) :
  0 <= i < 8 -> line i (set_line i b w) = b.
Proof.
  intros Hi. rewrite line_set_line by lia. rewrite Z.eqb_refl. reflexivity.
Qed.

Lemma with_bit_range (c i : Z) (b : bool) : 0 <= with_bit c i b < 256.
Proof. unfold with_bit. apply u8_range. Qed.

Lemma set_line_rmw (i : Z) (b : bool) (w : world) :
  0 <= i -> read_modify_write i (set_line i b) w.
Proof.
  intros Hi. split; [reflexivity |]. split.
  - unfold set_line, ctrl_update. cbn [bitbang]. apply with_bit_range.
  - apply set_line_touches_only. exact Hi.
Qed.

(** C1 (amended): bit 0 of the control register is the data-out line, bit 1
    the clock, bit 2 the active-low chip-select and bit 3 the capture mode;
    each helper gives the bit at its index the requested level and leaves
    every other bit of the register as it was. *)
Theorem control_bit_assignment (w : world) (b : bool) :
  (line 0 (mosi_set b w) = b /\ touches_only 0 (mosi_set b) w) /\
  (line 1 (clk CLK_ENABLE w) = true /\ touches_only 1 (clk CLK_ENABLE) w) /\
  (line 1 (clk (Z.lnot CLK_ENABLE) w) = false /\
   touches_only 1 (clk (Z.lnot CLK_ENABLE)) w) /\
  (line 2 (cs CS_ENABLE w) = true /\ touches_only 2 (cs CS_ENABLE) w) /\
  (line 2 (cs (Z.lnot CS_ENABLE) w) = false /\
   touches_only 2 (cs (Z.lnot CS_ENABLE)) w) /\
  (line 3 (enable MISO_MODE w) = true /\ touches_only 3 (enable MISO_MODE) w) /\
  (line 3 (enable (Z.lnot MISO_MODE) w) = false /\
   touches_only 3 (enable (Z.lnot MISO_MODE)) w).
Proof.
  unfold touches_only.
  rewrite mosi_set_eq, clk_high_eq, clk_low_eq, cs_high_eq, cs_low_eq,
    enable_high_eq, enable_low_eq.
  repeat split;
    try (apply set_line_sets; lia);
    apply set_line_touches_only; lia.
Qed.

(** C6: every helper call that the driver makes reads the control register
    once, writes one full byte back, and leaves all bits other than the
    targeted one unchanged, whatever the register held. *)
Theorem helpers_read_modify_write (w : world) (b : bool) :
  read_modify_write 0 (mosi_set b) w /\
  read_modify_write 1 (clk CLK_ENABLE) w /\
  read_modify_write 1 (clk (Z.lnot CLK_ENABLE)) w /\
  read_modify_write 2 (cs CS_ENABLE) w /\
  read_modify_write 2 (cs (Z.lnot CS_ENABLE)) w /\
  read_modify_write 3 (enable MISO_MODE) w /\
  read_modify_write 3 (enable (Z.lnot MISO_MODE)) w.
Proof.
  unfold read_modify_write, touches_only.
  rewrite mosi_set_eq, clk_high_eq, clk_low_eq, cs_high_eq, cs_low_eq,
    enable_high_eq, enable_low_eq.
  repeat split;
    try (unfold set_line, ctrl_update; cbn [bitbang]; apply with_bit_range);
    apply set_line_touches_only; lia.
Qed.

End ControlBits.

(** C1 (as stated) fails: from the all-zero register the clock helper leaves
    bit 0 alone and raises bit 1, so it does not touch exactly bit 0. *)
Lemma clock_is_not_bit0 :
  line 0 (clk CLK_ENABLE (reset_world 0)) = line 0 (reset_world 0) /\
  line 1 (clk CLK_ENABLE (reset_world 0)) <> line 1 (reset_world 0) /\
  ~ touches_only 0 (clk CLK_ENABLE) (reset_world 0).
Proof.
  split; [reflexivity |]. split; [discriminate |].
  intros H. specialize (H 1 ltac:(lia) ltac:(lia)). discriminate H.
Qed.

(** ** Address framing, data read and the opcode phase *)

Section Sequencing.

Context {P : Platform}.



Lemma log_data_read (nor : spi_nor) (from : Z) (len : nat) (w : world) :
  deselected w ->
  log (snd (spi_flash_nor_read nor from len w)) =
  log w ++ command (read_opcode nor) ++ bytes_out (address_bytes from)
        ++ bytes_in (int_count len) ++ [Deselect].
Proof.
  intros Hd. unfold spi_flash_nor_read. cbn [snd].
  rewrite log_cs_high_selected
    by (rewrite line_read_data, line_write_address, line_write_command by lia;
        reflexivity).
  rewrite log_read_data
    by (rewrite line_write_address, line_write_command by lia; reflexivity).
  rewrite log_write_address_gen by (rewrite line_write_command by lia; reflexivity).
  rewrite log_write_command by assumption. rewrite <- !app_assoc. reflexivity.
Qed.

Lemma data_read_deselects (nor : spi_nor) (from : Z) (len : nat) (w : world) :
  deselected (snd (spi_flash_nor_read nor from len w)).
Proof. unfold spi_flash_nor_read. cbn [snd]. apply cs_high_deselects. Qed.

Lemma transacts_data_read (nor : spi_nor) (from : Z) (len : nat) (w : world) :
  deselected w ->
  transacts (read_opcode nor) w (snd (spi_flash_nor_read nor from len w)).
Proof.
  intros Hd. eexists. split; [apply log_data_read; assumption |].
  apply cs_track_in_frame.
Qed.

(** The value that the data read returns: the [size_t] length converted
    to [ssize_t]. *)
Lemma data_read_result (nor : spi_nor) (from : Z) (len : nat) (w : world) :
  fst (fst (spi_flash_nor_read nor from len w)) = to_long (Z.of_nat len).
Proof. reflexivity. Qed.

(** The buffer that the data read fills: as many bytes as the [int]
    parameter of [read_data] counts. *)
Lemma data_read_buffer (nor : spi_nor) (from : Z) (len : nat) (w : world) :
  snd (fst (spi_flash_nor_read nor from len w)) =
  fst (read_data_loop (int_count len)
         (enable MISO_MODE
            (write_address from (write_command (read_opcode nor) w)))).
Proof. reflexivity. Qed.

(** A length below [2 ^ 31] survives the conversion to [long]. *)
Lemma to_long_small (x : Z) :
  32 <= BITS_PER_LONG -> 0 <= x < 2 ^ 31 -> to_long x = x.
Proof.
  intros HL Hx. unfold to_long, to_signed.
  assert (H31 : 2 ^ 31 <= 2 ^ (BITS_PER_LONG - 1))
    by (apply Z.pow_le_mono_r; lia).
  assert (HM : 2 ^ BITS_PER_LONG = 2 * 2 ^ (BITS_PER_LONG - 1)).
  { rewrite <- Z.pow_succ_r by lia. f_equal. lia. }
  rewrite Z.mod_small by lia. lia.
Qed.

(** C9 (amended): for every address and every length below [2 ^ 31], on a
    kernel whose [long] has at least 32 bits, the data read returns the
    requested length, never an error; it fills a buffer of that length; and
    its whole trace is one transaction (opcode, the three address bytes,
    [length] sampled bytes, deselect) in which the time is never read and
    no status is polled. *)
Theorem data_read_succeeds (nor : spi_nor) (from : Z) (len : nat) (w : world) :
  deselected w -> Z.of_nat len < 2 ^ 31 -> 32 <= BITS_PER_LONG ->
  fst (fst (spi_flash_nor_read nor from len w)) = Z.of_nat len /\
  length (snd (fst (spi_flash_nor_read nor from len w))) = len /\
  log (snd (spi_flash_nor_read nor from len w)) =
  log w ++ command (read_opcode nor) ++ bytes_out (address_bytes from)
        ++ bytes_in len ++ [Deselect].
Proof.
  intros Hd Hlen HL. split; [| split].
  - rewrite data_read_result. apply to_long_small; [exact HL | lia].
  - rewrite data_read_buffer, read_data_loop_length.
    apply int_count_small. exact Hlen.
  - rewrite log_data_read by assumption.
    rewrite int_count_small by exact Hlen. reflexivity.
Qed.


Lemma erase_outcome_bracketed (nor : spi_nor) (offs : Z) (w : world) (r : Z)
  (w' : world) :
  erase_outcome nor offs w r w' ->
  deselected w' /\ bracketed (write_enable w) w'.
Proof.
  intros H. unfold erase_outcome in H. split.
  - apply (after_wait_deselects _ _ _ _ _ _ _ H). intros w1 _ H1.
    apply (after_wait_deselects _ _ _ _ _ _ _ H1). intros w2 _ H2.
    apply (after_wait_deselects _ _ _ _ _ _ _ H2). intros w3 _ [_ ->].
    apply read_status_deselects.
  - apply (after_wait_bracketed _ _ _ _ _ _ _ (write_enable_deselects w) H).
    intros w1 Hd1 H1.
    eapply bracketed_trans; [apply bracketed_erase_command; exact Hd1 |].
    apply (after_wait_bracketed _ _ _ _ _ _ _
             (erase_command_deselects nor offs w1) H1).
    intros w2 Hd2 H2.
    apply (after_wait_bracketed _ _ _ _ _ _ _ Hd2 H2).
    intros w3 Hd3 [_ ->]. apply bracketed_read_status. exact Hd3.
Qed.

Lemma write_outcome_bracketed (nor : spi_nor) (to : Z) (buf : list Z)
  (w : world) (r : Z) (w' : world) :
  write_outcome nor to buf w r w' ->
  deselected w' /\ bracketed (write_enable w) w'.
Proof.
  intros H. unfold write_outcome in H. split.
  - apply (after_wait_deselects _ _ _ _ _ _ _ H). intros w1 _ H1.
    apply (after_wait_deselects _ _ _ _ _ _ _ H1). intros w2 _ [_ ->].
    apply read_status_deselects.
  - apply (after_wait_bracketed _ _ _ _ _ _ _ (write_enable_deselects w) H).
    intros w1 Hd1 H1.
    eapply bracketed_trans; [apply bracketed_program_command; exact Hd1 |].
    apply (after_wait_bracketed _ _ _ _ _ _ _
             (program_command_deselects nor to buf w1) H1).
    intros w2 Hd2 [_ ->]. apply bracketed_read_status. exact Hd2.
Qed.

Lemma write_reg_outcome_bracketed (opcode : Z) (buf : list Z)
  (w : world) (r : Z) (w' : world) :
  write_reg_outcome opcode buf w r w' ->
  deselected w' /\ bracketed (write_enable w) w'.
Proof.
  intros H. unfold write_reg_outcome in H. split.
  - apply (after_wait_deselects _ _ _ _ _ _ _ H). intros w1 _ H1.
    apply (after_wait_deselects _ _ _ _ _ _ _ H1). intros w2 Hd2 [_ ->].
    exact Hd2.
  - apply (after_wait_bracketed _ _ _ _ _ _ _ (write_enable_deselects w) H).
    intros w1 Hd1 H1.
    eapply bracketed_trans; [apply bracketed_register_command; exact Hd1 |].
    apply (after_wait_bracketed _ _ _ _ _ _ _
             (register_command_deselects opcode buf w1) H1).
    intros w2 Hd2 [_ ->]. apply bracketed_refl.
Qed.

(** From a deselected chip, the trace of an operation that waits is made
    of whole transactions and opens with WRITE-ENABLE. *)
Lemma transacts_after_write_enable (w w' : world) :
  deselected w -> bracketed (write_enable w) w' ->
  transacts WRITE_ENABLE w w'.
Proof.
  intros Hd Hb.
  eapply transacts_then; [apply transacts_write_enable; exact Hd | exact Hb].
Qed.


End Sequencing.

(** ** Busy polling and the operations that wait *)

Section Waiting.

Context {P : Platform}.

(** C8: the wait computes its deadline once, at entry, as the time then
    plus the converted delay (an [unsigned long]), and then polls the
    status register [reg]: the first [n] polls find a bit of [flag] set
    with the time not after the deadline, and the next poll decides: flag
    clear gives 0, flag set with the time after the deadline gives
    [- ETIMEDOUT].  Every poll is one one-byte register read of [reg] on
    the wire.  After the deadline is the kernel's [time_after], which is
    the plain comparison whenever the two times are less than half the
    range of the counter apart. *)
Theorem busy_poll_guard (time reg flag : Z) (w : world) :
  clock_live ->
  exists (n : nat) (r : Z) (w' : world),
    let deadline :=
      ulong (jiffies_of (clock w) + msecs_to_jiffies (u32 time)) in
    let w0 := snd (get_jiffies w) in
    (forall fuel, (n < fuel)%nat -> busy fuel time reg flag w = Some (r, w')) /\
    (forall k, (k < n)%nat ->
       to_bool (Z.land (status_of reg (polls reg k w0)) flag) = true /\
       time_after (poll_time reg (polls reg k w0)) deadline = false) /\
    ((to_bool (Z.land (status_of reg (polls reg n w0)) flag) = false /\
      r = 0 /\ w' = snd (read_status reg (polls reg n w0))) \/
     (to_bool (Z.land (status_of reg (polls reg n w0)) flag) = true /\
      time_after (poll_time reg (polls reg n w0)) deadline = true /\
      r = - ETIMEDOUT /\ w' = poll_step reg (polls reg n w0))) /\
    (deselected w -> forall k,
       log (snd (read_status reg (polls reg k w0))) =
       log (polls reg k w0) ++ read_frame reg 1) /\
    (forall a b,
       - 2 ^ (BITS_PER_LONG - 1) <= b - a < 2 ^ (BITS_PER_LONG - 1) ->
       time_after a b = (b <? a)).
Proof.
  intros Hlive.
  assert (HL : 0 < BITS_PER_LONG) by (destruct Hlive as [J [HL _]]; exact HL).
  destruct (deciding_poll time reg flag w Hlive) as [n [Hk Hn]].
  unfold deadline_of in Hk, Hn. rewrite fst_get_jiffies in Hk, Hn.
  pose (u := polls reg n (snd (get_jiffies w))).
  exists n,
    (if still_busy reg flag u then - ETIMEDOUT else 0),
    (if still_busy reg flag u then poll_step reg u
     else snd (read_status reg u)).
  cbv zeta.
  split; [| split; [exact Hk | split; [| split;
    [| intros a b; apply time_after_near; exact HL]]]].
  - intros fuel Hf. unfold busy. rewrite fst_get_jiffies.
    rewrite (busy_loop_closed n) by (try assumption; lia).
    fold u. destruct (still_busy reg flag u); reflexivity.
  - fold u. fold (still_busy reg flag u).
    destruct (still_busy reg flag u) eqn:Hb.
    + right. unfold u in Hb. specialize (Hn Hb). auto.
    + left. auto.
  - intros Hd k. apply log_read_status.
    apply bracketed_polls. unfold deselected.
    rewrite line_get_jiffies. exact Hd.
Qed.

Lemma waited_ends (time reg flag : Z) (w : world) (r : Z) (w' : world) :
  waited time reg flag w r w' ->
  exists t : bool,
    wait_ends time reg flag w t w' /\ r = (if t then - ETIMEDOUT else 0).
Proof.
  intros [n [Hk H]]. cbv zeta in H.
  destruct (still_busy reg flag (polls reg n (snd (get_jiffies w)))) eqn:Hb.
  - destruct H as [Ht [-> ->]]. exists true. split; [| reflexivity].
    exists n. cbv zeta. auto.
  - destruct H as [-> ->]. exists false. split; [| reflexivity].
    exists n. cbv zeta. auto.
Qed.

(** How a wait ended, read off its result when [ETIMEDOUT] is not zero. *)
Lemma waited_cases (time reg flag : Z) (w : world) (r : Z) (w' : world) :
  ETIMEDOUT <> 0 ->
  waited time reg flag w r w' ->
  (r <> 0 -> wait_ends time reg flag w true w') /\
  (r = 0 -> wait_ends time reg flag w false w').
Proof.
  intros Hne Hw. destruct (waited_ends _ _ _ _ _ _ Hw) as [t [He ->]].
  destruct t; split; intros H; try assumption; try contradiction; lia.
Qed.


(** A payload shorter than [2 ^ 31] bytes is sent whole. *)
Lemma sent_payload_small (buf : list Z) :
  Z.of_nat (length buf) < 2 ^ 31 -> sent_payload buf = buf.
Proof.
  intros H. unfold sent_payload. rewrite int_count_small by exact H.
  apply firstn_all.
Qed.


(** C3 (amended): on a kernel whose [long] has at least 32 bits, for every
    payload shorter than [2 ^ 31] bytes, the write returns [- ETIMEDOUT]
    when either of its two waits on the work-in-progress flag (50 ms each)
    times out, [- EINVAL] when bit 4 of the flag-status byte read
    afterwards is set, and otherwise the length of the payload, every byte
    of which it has sent. *)
Theorem write_result (nor : spi_nor) (to : Z) (buf : list Z) (w : world) :
  clock_live -> ETIMEDOUT <> 0 -> deselected w ->
  Z.of_nat (length buf) < 2 ^ 31 -> 32 <= BITS_PER_LONG ->
  exists (f : nat) (r : Z) (w' : world),
    (forall fuel, (f <= fuel)%nat ->
       spi_flash_nor_write fuel nor to buf w = Some (r, w')) /\
    exists t1 w1,
      wait_ends TIMEOUT_MS READ_STATUS_REGISTER WORK_IN_PROGRESS
        (write_enable w) t1 w1 /\
      ((t1 = true /\ r = - ETIMEDOUT /\ w' = w1) \/
       (t1 = false /\
        log (program_command nor to buf w1) =
        log w1 ++ command (program_opcode nor) ++ bytes_out (address_bytes to)
               ++ bytes_out buf ++ [Deselect] /\
        exists t2 w2,
          wait_ends TIMEOUT_MS READ_STATUS_REGISTER WORK_IN_PROGRESS
            (program_command nor to buf w1) t2 w2 /\
          ((t2 = true /\ r = - ETIMEDOUT /\ w' = w2) \/
           (t2 = false /\
            w' = snd (read_status READ_FLAG_STATUS_REGISTER w2) /\
            ((Z.testbit (status_of READ_FLAG_STATUS_REGISTER w2) 4 = true /\
              r = - EINVAL) \/
             (Z.testbit (status_of READ_FLAG_STATUS_REGISTER w2) 4 = false /\
              r = Z.of_nat (length buf))))))).
Proof.
  intros Hlive Hne Hd Hlen HL.
  destruct (write_runs nor to buf w Hlive) as [f [r [w' [Hrun Hout]]]].
  exists f, r, w'. split; [exact Hrun |].
  destruct Hout as [r1 [w1 [Hw1 [[N1 [-> ->]] | [E1 H1]]]]].
  { exists true, w1.
    split; [exact (proj1 (waited_cases _ _ _ _ _ _ Hne Hw1) N1) |]. left. auto. }
  exists false, w1.
  split; [exact (proj2 (waited_cases _ _ _ _ _ _ Hne Hw1) E1) |].
  right. split; [reflexivity |]. split.
  { rewrite log_program_command by exact (waited_deselects _ _ _ _ _ _ Hw1).
    rewrite sent_payload_small by exact Hlen. reflexivity. }
  destruct H1 as [r2 [w2 [Hw2 [[N2 [-> ->]] | [E2 [-> ->]]]]]].
  { exists true, w2.
    split; [exact (proj1 (waited_cases _ _ _ _ _ _ Hne Hw2) N2) |]. left. auto. }
  exists false, w2.
  split; [exact (proj2 (waited_cases _ _ _ _ _ _ Hne Hw2) E2) |].
  right. split; [reflexivity |]. split; [reflexivity |].
  rewrite to_long_small by (try assumption; lia).
  destruct (Z.testbit (status_of READ_FLAG_STATUS_REGISTER w2) 4); auto.
Qed.

(** C7: in every transaction shape chip-select is low from the opcode
    phase on: the opcode phase leaves it low and the address, payload and
    sampling phases do not move it.  Each of the five operations returns
    with chip-select high, on every path, whatever the register held at
    entry; and from a deselected chip its trace is made of whole
    transactions, the first one opening with the opcode phase of the
    operation: chip-select falls after the eight dummy pulses, the opcode
    and every later data bit are clocked while it is low, and it rises
    before the next dummy pulse or reading of the time. *)
Theorem chip_select_released (nor : spi_nor) (op a : Z) (n : nat)
  (buf : list Z) (w : world) :
  clock_live ->
  (line 2 (write_command op w) = false /\
   line 2 (write_address a w) = line 2 w /\
   line 2 (write_data buf (Z.of_nat (length buf)) w) = line 2 w /\
   line 2 (snd (read_data (Z.of_nat n) w)) = line 2 w) /\
  (deselected (snd (spi_flash_nor_read_reg op n w)) /\
   (deselected w -> transacts op w (snd (spi_flash_nor_read_reg op n w)))) /\
  (deselected (snd (spi_flash_nor_read nor a n w)) /\
   (deselected w ->
    transacts (read_opcode nor) w (snd (spi_flash_nor_read nor a n w)))) /\
  (exists f r w',
     (forall fuel, (f <= fuel)%nat ->
        spi_flash_nor_erase fuel nor a w = Some (r, w')) /\
     deselected w' /\ (deselected w -> transacts WRITE_ENABLE w w')) /\
  (exists f r w',
     (forall fuel, (f <= fuel)%nat ->
        spi_flash_nor_write fuel nor a buf w = Some (r, w')) /\
     deselected w' /\ (deselected w -> transacts WRITE_ENABLE w w')) /\
  (exists f r w',
     (forall fuel, (f <= fuel)%nat ->
        spi_flash_nor_write_reg fuel op buf w = Some (r, w')) /\
     deselected w' /\ (deselected w -> transacts WRITE_ENABLE w w')).
Proof.
  intros Hlive.
  split.
  { rewrite line_write_command, line_write_address, line_write_data,
      line_read_data by lia. repeat split. }
  split; [split; [apply read_reg_deselects | apply transacts_read_reg] |].
  split; [split; [apply data_read_deselects | apply transacts_data_read] |].
  split; [| split].
  - destruct (erase_runs nor a w Hlive) as [f [r [w' [Hrun Hout]]]].
    destruct (erase_outcome_bracketed _ _ _ _ _ Hout) as [Hd' Hb].
    exists f, r, w'. split; [exact Hrun |]. split; [exact Hd' |].
    intros Hd. apply transacts_after_write_enable; assumption.
  - destruct (write_runs nor a buf w Hlive) as [f [r [w' [Hrun Hout]]]].
    destruct (write_outcome_bracketed _ _ _ _ _ _ Hout) as [Hd' Hb].
    exists f, r, w'. split; [exact Hrun |]. split; [exact Hd' |].
    intros Hd. apply transacts_after_write_enable; assumption.
  - destruct (write_reg_runs op buf w Hlive) as [f [r [w' [Hrun Hout]]]].
    destruct (write_reg_outcome_bracketed _ _ _ _ _ Hout) as [Hd' Hb].
    exists f, r, w'. split; [exact Hrun |]. split; [exact Hd' |].
    intros Hd. apply transacts_after_write_enable; assumption.
Qed.

End Waiting.

(** ** Loopback *)

Section Loopback.

Local Existing Instance delay_loopback.

Lemma chip_set_line (i : Z) (b : bool) (w : world) :
  chip (set_line i b w) =
  delay_step (bitbang w) (with_bit (u8 (bitbang w)) i b) (chip w).
Proof. reflexivity. Qed.

Lemma delay_set_mosi (b : bool) (w : world) :
  chip (set_line 0 b w) = chip w.
Proof.
  rewrite chip_set_line. unfold delay_step.
  rewrite with_bit_testbit, u8_testbit by lia. cbn [Z.eqb].
  destruct (Z.testbit (bitbang w) 1); reflexivity.
Qed.

Lemma delay_pulse (w : world) :
  chip (pulse w) =
  (Z.b2z (hd false (snd (chip w))), push_bit (snd (chip w)) (line 0 w)).
Proof.
  unfold pulse. rewrite clk_low_eq, clk_high_eq.
  rewrite chip_set_line. unfold delay_step at 1.
  rewrite with_bit_testbit, u8_testbit by lia.
  fold (line 1 (set_line 1 false w)).
  rewrite (with_bit_testbit _ 1 0) by lia. rewrite u8_testbit by lia.
  fold (line 0 (set_line 1 false w)).
  rewrite !line_set_line by lia. cbn [Z.eqb Pos.eqb negb andb].
  rewrite chip_set_line. unfold delay_step.
  rewrite with_bit_testbit by lia. cbn [Z.eqb Pos.eqb].
  rewrite andb_false_r. reflexivity.
Qed.

Lemma delay_send_loop (n : nat) : forall (c : Z) (w : world),
  (n <= 8)%nat ->
  snd (chip (send_loop n c w)) =
  fold_left push_bit
    (map (fun k => Z.testbit c (7 - Z.of_nat k)) (seq 0 n)) (snd (chip w)).
Proof.
  induction n as [| n IH]; intros c w Hn; [reflexivity |].
  rewrite send_loop_step, IH by lia.
  rewrite delay_pulse. cbn [snd]. rewrite delay_set_mosi.
  rewrite line_set_line by lia. cbn [Z.eqb seq map fold_left].
  f_equal. rewrite <- seq_shift, map_map. apply map_ext_in.
  intros k Hk. apply in_seq in Hk.
  rewrite shifted_testbit by lia. f_equal. lia.
Qed.

Lemma delay_send (b : Z) (w : world) :
  length (snd (chip w)) = 8%nat ->
  snd (chip (spi_bitbang_send b w)) =
  map (Z.testbit b) [7; 6; 5; 4; 3; 2; 1; 0].
Proof.
  intros Hq. unfold spi_bitbang_send.
  change (Z.to_nat (BIT_SHIFT + 1)) with 8%nat.
  rewrite delay_send_loop by lia. cbn [seq map].
  rewrite !u8_testbit by lia.
  destruct (snd (chip w)) as [| q0 [| q1 [| q2 [| q3 [| q4 [| q5 [| q6 [| q7 [| q8 q]]]]]]]]];
    try discriminate Hq.
  reflexivity.
Qed.

Lemma delay_miso_read (w : world) :
  fst (miso_read w) = Z.land (u8 (fst (chip w))) 1 /\
  chip (snd (miso_read w)) = chip w /\
  line 0 (snd (miso_read w)) = line 0 w.
Proof. repeat split. Qed.

Lemma b2z_bit (b : bool) : Z.land (u8 (Z.b2z b)) 1 = Z.b2z b.
Proof. destruct b; reflexivity. Qed.

Lemma delay_read_loop (n : nat) : forall (byte : Z) (w : world),
  (n <= length (snd (chip w)))%nat ->
  fst (read_loop n byte w) = assemble byte (firstn n (snd (chip w))).
Proof.
  induction n as [| n IH]; intros byte w Hn; [reflexivity |].
  rewrite read_loop_step.
  destruct (delay_miso_read (pulse w)) as [Hv [Hc _]].
  rewrite delay_pulse in Hv, Hc. cbn [fst] in Hv.
  destruct (snd (chip w)) as [| q0 q] eqn:Eq; [cbn in Hn; lia |].
  cbn [length] in Hn. rewrite Hv.
  rewrite IH by (rewrite Hc; cbn [snd push_bit tl]; unfold push_bit;
                 cbn [tl]; rewrite length_app; lia).
  rewrite Hc. cbn [snd hd]. unfold push_bit. cbn [tl firstn assemble].
  rewrite firstn_app. replace (n - length q)%nat with 0%nat by lia.
  cbn [firstn]. rewrite app_nil_r, b2z_bit.
  rewrite length_firstn. replace (Nat.min n (length q)) with n by lia.
  reflexivity.
Qed.

Lemma assemble_bits (b : Z) :
  0 <= b < 256 -> assemble 0 (map (Z.testbit b) [7; 6; 5; 4; 3; 2; 1; 0]) = b.
Proof.
  intros Hb.
  assert (H : forallb
                (fun n => assemble 0 (map (Z.testbit (Z.of_nat n))
                                          [7; 6; 5; 4; 3; 2; 1; 0])
                          =? Z.of_nat n) (seq 0 256) = true)
    by (vm_compute; reflexivity).
  rewrite forallb_forall in H.
  specialize (H (Z.to_nat b)). rewrite Z2Nat.id in H by lia.
  apply Z.eqb_eq, H. apply in_seq. lia.
Qed.

(** C4 (amended): through a loopback that queues the driven bits and
    replays them in the same order, eight clock pulses later, the byte
    received right after sending [b] is [b]. *)
Theorem delay_loopback_round_trip (b : Z) (w : world) :
  0 <= b < 256 -> length (snd (chip w)) = 8%nat ->
  fst (spi_bitbang_read (spi_bitbang_send b w)) = b.
Proof.
  intros Hb Hq. unfold spi_bitbang_read.
  change (Z.to_nat (BIT_SHIFT + 1)) with 8%nat.
  rewrite delay_read_loop by (rewrite delay_send by exact Hq; cbn; lia).
  rewrite delay_send by exact Hq. cbn [firstn map].
  exact (assemble_bits b Hb).
Qed.

End Loopback.

(** C4 (as stated) fails: when the sampled input bit is the last driven
    output bit, the byte received after sending 2 is 0, and the byte
    received after sending 1 is 255. *)
Lemma wire_loopback_loses_byte :
  fst (spi_bitbang_read (P := wire_loopback)
         (spi_bitbang_send 2 (mkWorld (P := wire_loopback) 0 0 0 0 []))) = 0 /\
  fst (spi_bitbang_read (P := wire_loopback)
         (spi_bitbang_send 1 (mkWorld (P := wire_loopback) 0 0 0 0 []))) = 255.
Proof. split; vm_compute; reflexivity. Qed.



(** C9 (as stated) fails for a length that does not fit the [int]
    parameter of [read_data]: on a 32-bit kernel the read of [2 ^ 31] bytes
    returns a negative number and fills no byte of the buffer. *)
Lemma data_read_length_overflow :
  fst (fst (spi_flash_nor_read sample_nor 0 (Z.to_nat 2147483648)
              (ready_world 0))) = -2147483648 /\
  snd (fst (spi_flash_nor_read sample_nor 0 (Z.to_nat 2147483648)
              (ready_world 0))) = [].
Proof.
  rewrite data_read_result, data_read_buffer. unfold int_count.
  rewrite Z2Nat.id by lia. split; reflexivity.
Qed.

(** ** The properties at concrete inputs *)

(** The clock of the simulated platform goes on. *)
Lemma const_clock_live (miso : Z) : clock_live (P := const_platform miso).
Proof.
  exists (fun c => c). split; [reflexivity |]. split; [reflexivity |].
  split; [intros c c' H; exact H |]. split.
  - intros t. exists (t + 1). lia.
  - intros c. change (2 ^ (BITS_PER_LONG - 1)) with 2147483648. lia.
Qed.


Lemma data_read_succeeds_witness :
  deselected (ready_world 0) /\
  Z.of_nat 2 < 2 ^ 31 /\
  32 <= BITS_PER_LONG (Platform := const_platform 0) /\
  fst (fst (spi_flash_nor_read sample_nor 66051 2 (ready_world 0))) = 2 /\
  length (snd (fst (spi_flash_nor_read sample_nor 66051 2 (ready_world 0)))) = 2%nat.
Proof.
  assert (HL : 32 <= BITS_PER_LONG (Platform := const_platform 0))
    by (cbn; lia).
  split; [reflexivity |]. split; [reflexivity |]. split; [exact HL |].
  destruct (data_read_succeeds (P := const_platform 0) sample_nor 66051 2
              (ready_world 0) eq_refl eq_refl HL) as [H1 [H2 _]].
  split; [exact H1 | exact H2].
Defined.


Lemma busy_poll_guard_witness :
  clock_live (P := const_platform 1) /\
  exists (n : nat) (r : Z) (w' : world (P := const_platform 1)),
    forall fuel, (n < fuel)%nat ->
      busy fuel TIMEOUT_MS READ_STATUS_REGISTER WORK_IN_PROGRESS (ready_world 1)
      = Some (r, w').
Proof.
  split; [exact (const_clock_live 1) |].
  destruct (busy_poll_guard (P := const_platform 1) TIMEOUT_MS
              READ_STATUS_REGISTER WORK_IN_PROGRESS (ready_world 1)
              (const_clock_live 1))
    as [n [r [w' [H _]]]].
  exists n, r, w'. exact H.
Defined.


Lemma write_result_witness :
  clock_live (P := const_platform 0) /\
  ETIMEDOUT (Platform := const_platform 0) <> 0 /\
  deselected (ready_world 0) /\
  Z.of_nat (length [1; 2; 3]) < 2 ^ 31 /\
  32 <= BITS_PER_LONG (Platform := const_platform 0) /\
  exists (f : nat) (r : Z) (w' : world (P := const_platform 0)),
    forall fuel, (f <= fuel)%nat ->
      spi_flash_nor_write fuel sample_nor 66051 [1; 2; 3] (ready_world 0)
      = Some (r, w').
Proof.
  assert (Hne : ETIMEDOUT (Platform := const_platform 0) <> 0)
    by (cbn; discriminate).
  assert (HL : 32 <= BITS_PER_LONG (Platform := const_platform 0))
    by (cbn; lia).
  split; [exact (const_clock_live 0) |]. split; [exact Hne |].
  split; [reflexivity |]. split; [reflexivity |]. split; [exact HL |].
  destruct (write_result (P := const_platform 0) sample_nor 66051 [1; 2; 3]
              (ready_world 0) (const_clock_live 0) Hne eq_refl eq_refl HL)
    as [f [r [w' [H _]]]].
  exists f, r, w'. exact H.
Defined.

Lemma chip_select_released_witness :
  clock_live (P := const_platform 1) /\
  deselected (snd (spi_flash_nor_read_reg 5 1 (ready_world 1))) /\
  exists (f : nat) (r : Z) (w' : world (P := const_platform 1)),
    (forall fuel, (f <= fuel)%nat ->
       spi_flash_nor_erase fuel sample_nor 66051 (ready_world 1) = Some (r, w')) /\
    deselected w' /\ transacts WRITE_ENABLE (ready_world 1) w'.
Proof.
  split; [exact (const_clock_live 1) |].
  destruct (chip_select_released (P := const_platform 1) sample_nor 5 66051 1
              [7] (ready_world 1) (const_clock_live 1))
    as [_ [[H1 _] [_ [[f [r [w' [H [Hd Ht]]]]] _]]]].
  split; [exact H1 |].
  exists f, r, w'. split; [exact H |]. split; [exact Hd |].
  apply Ht. reflexivity.
Defined.

Lemma delay_loopback_round_trip_witness :
  0 <= 165 < 256 /\
  length (snd (chip delay_world)) = 8%nat /\
  fst (spi_bitbang_read (spi_bitbang_send 165 delay_world)) = 165.
Proof.
  split; [lia |]. split; [reflexivity |].
  apply (delay_loopback_round_trip 165 delay_world); [lia | reflexivity].
Defined.

(** ** Further properties of the driver *)

Section Lifecycle.

Context {P : Platform}.


End Lifecycle.

Section EnableRegister.

Context {P : Platform}.

Lemma en_pulse (w : world) : bitbang_en (pulse w) = bitbang_en w.
Proof. unfold pulse. rewrite clk_low_eq, clk_high_eq. reflexivity. Qed.

Lemma en_send_loop (n : nat) : forall (c : Z) (w : world),
  bitbang_en (send_loop n c w) = bitbang_en w.
Proof.
  induction n as [| n IH]; intros c w; [reflexivity |].
  rewrite send_loop_step, IH, en_pulse. reflexivity.
Qed.

Lemma en_read_loop (n : nat) : forall (byte : Z) (w : world),
  bitbang_en (snd (read_loop n byte w)) = bitbang_en w.
Proof.
  induction n as [| n IH]; intros byte w; [reflexivity |].
  rewrite read_loop_step, IH.
  change (bitbang_en (snd (miso_read (pulse w)))) with (bitbang_en (pulse w)).
  apply en_pulse.
Qed.

Lemma en_dummy_loop (n : nat) : forall (w : world),
  bitbang_en (dummy_loop n w) = bitbang_en w.
Proof.
  induction n as [| n IH]; intros w; [reflexivity |].
  cbn [dummy_loop]. fold (pulse w). rewrite IH. apply en_pulse.
Qed.

Lemma en_write_command (op : Z) (w : world) :
  bitbang_en (write_command op w) = bitbang_en w.
Proof.
  unfold write_command, spi_bitbang_send, dummy_cycles.
  rewrite en_send_loop, cs_low_eq, en_set_line, en_dummy_loop, enable_low_eq.
  apply en_set_line.
Qed.

Lemma en_write_address (a : Z) (w : world) :
  bitbang_en (write_address a w) = bitbang_en w.
Proof.
  unfold write_address. change (Z.to_nat ADDRESS_SIZE) with 3%nat.
  cbn [address_loop]. unfold spi_bitbang_send. rewrite !en_send_loop.
  reflexivity.
Qed.

Lemma en_write_data_loop (l : list Z) : forall (w : world),
  bitbang_en (write_data_loop l w) = bitbang_en w.
Proof.
  induction l as [| d l IH]; intros w; [reflexivity |].
  cbn [write_data_loop]. rewrite IH. unfold spi_bitbang_send.
  apply en_send_loop.
Qed.

Lemma en_write_data (l : list Z) (len : Z) (w : world) :
  bitbang_en (write_data l len w) = bitbang_en w.
Proof.
  unfold write_data. rewrite en_write_data_loop, enable_low_eq.
  apply en_set_line.
Qed.

Lemma en_read_data_loop (n : nat) : forall (w : world),
  bitbang_en (snd (read_data_loop n w)) = bitbang_en w.
Proof.
  induction n as [| n IH]; intros w; [reflexivity |].
  cbn [read_data_loop snd]. rewrite IH. unfold spi_bitbang_read.
  apply en_read_loop.
Qed.

Lemma en_cs_high (w : world) : bitbang_en (cs CS_ENABLE w) = bitbang_en w.
Proof. rewrite cs_high_eq. apply en_set_line. Qed.

Lemma en_read_reg (op : Z) (n : nat) (w : world) :
  bitbang_en (snd (spi_flash_nor_read_reg op n w)) = bitbang_en w.
Proof.
  unfold spi_flash_nor_read_reg, read_data. cbn [snd].
  rewrite en_cs_high, en_read_data_loop, enable_high_eq, en_set_line.
  apply en_write_command.
Qed.

Lemma en_data_read (nor : spi_nor) (a : Z) (n : nat) (w : world) :
  bitbang_en (snd (spi_flash_nor_read nor a n w)) = bitbang_en w.
Proof.
  unfold spi_flash_nor_read, read_data. cbn [snd].
  rewrite en_cs_high, en_read_data_loop, enable_high_eq, en_set_line.
  rewrite en_write_address. apply en_write_command.
Qed.

Lemma en_read_status (reg : Z) (w : world) :
  bitbang_en (snd (read_status reg w)) = bitbang_en w.
Proof. rewrite snd_read_status. apply en_read_reg. Qed.

Lemma en_get_jiffies (w : world) :
  bitbang_en (snd (get_jiffies w)) = bitbang_en w.
Proof. reflexivity. Qed.

Lemma en_poll_step (reg : Z) (w : world) :
  bitbang_en (poll_step reg w) = bitbang_en w.
Proof. unfold poll_step. rewrite en_get_jiffies. apply en_read_status. Qed.

Lemma en_polls (reg : Z) (n : nat) : forall w : world,
  bitbang_en (polls reg n w) = bitbang_en w.
Proof.
  induction n as [| n IH]; intros w; [reflexivity |].
  cbn [polls]. rewrite IH. apply en_poll_step.
Qed.

Lemma en_waited (time reg flag : Z) (w : world) (r : Z) (w' : world) :
  waited time reg flag w r w' -> bitbang_en w' = bitbang_en w.
Proof.
  intros [n [_ H]]. cbv zeta in H.
  destruct (still_busy reg flag _).
  - destruct H as [_ [_ ->]]. rewrite en_poll_step, en_polls. reflexivity.
  - destruct H as [_ ->]. rewrite en_read_status, en_polls. reflexivity.
Qed.

Lemma en_after_wait (time reg flag : Z) (w : world) (r : Z) (w' : world)
  (k : world -> Prop) :
  after_wait time reg flag w r w' k ->
  (forall w1, k w1 -> bitbang_en w' = bitbang_en w1) ->
  bitbang_en w' = bitbang_en w.
Proof.
  intros [r1 [w1 [Hw [[_ [_ ->]] | [_ Hk]]]]] Hcont.
  - exact (en_waited _ _ _ _ _ _ Hw).
  - rewrite (Hcont w1 Hk). exact (en_waited _ _ _ _ _ _ Hw).
Qed.

Lemma en_write_enable (w : world) :
  bitbang_en (write_enable w) = bitbang_en w.
Proof. unfold write_enable. rewrite en_cs_high. apply en_write_command. Qed.

Lemma en_erase_outcome (nor : spi_nor) (a : Z) (w : world) (r : Z)
  (w' : world) :
  erase_outcome nor a w r w' -> bitbang_en w' = bitbang_en w.
Proof.
  intros Hout. rewrite <- (en_write_enable w). unfold erase_outcome in Hout.
  apply (en_after_wait _ _ _ _ _ _ _ Hout). intros w1 H1.
  transitivity (bitbang_en (erase_command nor a w1)).
  - apply (en_after_wait _ _ _ _ _ _ _ H1). intros w2 H2.
    apply (en_after_wait _ _ _ _ _ _ _ H2). intros w3 [_ ->].
    apply en_read_status.
  - unfold erase_command.
    rewrite en_cs_high, en_write_address. apply en_write_command.
Qed.

Lemma en_write_outcome (nor : spi_nor) (a : Z) (buf : list Z) (w : world)
  (r : Z) (w' : world) :
  write_outcome nor a buf w r w' -> bitbang_en w' = bitbang_en w.
Proof.
  intros Hout. rewrite <- (en_write_enable w). unfold write_outcome in Hout.
  apply (en_after_wait _ _ _ _ _ _ _ Hout). intros w1 H1.
  transitivity (bitbang_en (program_command nor a buf w1)).
  - apply (en_after_wait _ _ _ _ _ _ _ H1). intros w2 [_ ->].
    apply en_read_status.
  - unfold program_command.
    rewrite en_cs_high, en_write_data, en_write_address.
    apply en_write_command.
Qed.

Lemma en_write_reg_outcome (op : Z) (buf : list Z) (w : world) (r : Z)
  (w' : world) :
  write_reg_outcome op buf w r w' -> bitbang_en w' = bitbang_en w.
Proof.
  intros Hout. rewrite <- (en_write_enable w). unfold write_reg_outcome in Hout.
  apply (en_after_wait _ _ _ _ _ _ _ Hout). intros w1 H1.
  transitivity (bitbang_en (register_command op buf w1)).
  - apply (en_after_wait _ _ _ _ _ _ _ H1). intros w2 [_ ->]. reflexivity.
  - unfold register_command.
    rewrite en_cs_high, en_write_data. apply en_write_command.
Qed.

(** A trace of whole transactions holds no write of the enable register. *)
Lemma bracketed_no_enable (w w' : world) :
  bracketed w w' -> exists l, log w' = log w ++ l /\ no_enable l = true.
Proof.
  intros [l [E T]]. exists l. split; [exact E |].
  exact (cs_track_no_enable l _ _ T).
Qed.

(** X2: no operation writes the enable register: from a deselected chip
    the trace of each of the five operations holds no write of it, on every
    return path, and the register holds at return what it held at entry, so
    the engine that [initial_config] enabled stays enabled. *)
Theorem enable_register_untouched (nor : spi_nor) (op a : Z) (n : nat)
  (buf : list Z) (w : world) :
  clock_live -> deselected w ->
  enable_untouched w (snd (spi_flash_nor_read_reg op n w)) /\
  enable_untouched w (snd (spi_flash_nor_read nor a n w)) /\
  (exists f r w',
     (forall fuel, (f <= fuel)%nat ->
        spi_flash_nor_erase fuel nor a w = Some (r, w')) /\
     enable_untouched w w') /\
  (exists f r w',
     (forall fuel, (f <= fuel)%nat ->
        spi_flash_nor_write fuel nor a buf w = Some (r, w')) /\
     enable_untouched w w') /\
  (exists f r w',
     (forall fuel, (f <= fuel)%nat ->
        spi_flash_nor_write_reg fuel op buf w = Some (r, w')) /\
     enable_untouched w w').
Proof.
  intros Hlive Hd. unfold enable_untouched.
  split; [split; [apply bracketed_no_enable, bracketed_read_reg, Hd
                 | apply en_read_reg] |].
  split; [split; [eapply bracketed_no_enable, transacts_bracketed,
                    transacts_data_read, Hd
                 | apply en_data_read] |].
  split; [| split].
  - destruct (erase_runs nor a w Hlive) as [f [r [w' [Hrun Hout]]]].
    exists f, r, w'. split; [exact Hrun |]. split.
    + eapply bracketed_no_enable, transacts_bracketed,
        transacts_after_write_enable; [exact Hd |].
      exact (proj2 (erase_outcome_bracketed _ _ _ _ _ Hout)).
    + exact (en_erase_outcome _ _ _ _ _ Hout).
  - destruct (write_runs nor a buf w Hlive) as [f [r [w' [Hrun Hout]]]].
    exists f, r, w'. split; [exact Hrun |]. split.
    + eapply bracketed_no_enable, transacts_bracketed,
        transacts_after_write_enable; [exact Hd |].
      exact (proj2 (write_outcome_bracketed _ _ _ _ _ _ Hout)).
    + exact (en_write_outcome _ _ _ _ _ _ Hout).
  - destruct (write_reg_runs op buf w Hlive) as [f [r [w' [Hrun Hout]]]].
    exists f, r, w'. split; [exact Hrun |]. split.
    + eapply bracketed_no_enable, transacts_bracketed,
        transacts_after_write_enable; [exact Hd |].
      exact (proj2 (write_reg_outcome_bracketed _ _ _ _ _ Hout)).
    + exact (en_write_reg_outcome _ _ _ _ _ Hout).
Qed.

End EnableRegister.

Section RegisterAccess.

Context {P : Platform}.

(** X3: the register write returns [- ETIMEDOUT] when one of its two waits
    on the work-in-progress flag times out and 0 otherwise; on the wire it
    is the WRITE-ENABLE transaction and then one transaction with the
    opcode and the bytes of the payload that the [int] length of
    [write_data] counts, in order: all of them when the payload is shorter
    than [2 ^ 31] bytes. *)
Theorem write_reg_result (opcode : Z) (buf : list Z) (w : world) :
  clock_live -> ETIMEDOUT <> 0 -> deselected w ->
  exists (f : nat) (r : Z) (w' : world),
    (forall fuel, (f <= fuel)%nat ->
       spi_flash_nor_write_reg fuel opcode buf w = Some (r, w')) /\
    log (write_enable w) = log w ++ command WRITE_ENABLE ++ [Deselect] /\
    (Z.of_nat (length buf) < 2 ^ 31 -> sent_payload buf = buf) /\
    exists t1 w1,
      wait_ends TIMEOUT_MS READ_STATUS_REGISTER WORK_IN_PROGRESS
        (write_enable w) t1 w1 /\
      ((t1 = true /\ r = - ETIMEDOUT /\ w' = w1) \/
       (t1 = false /\
        log (register_command opcode buf w1) =
        log w1 ++ command opcode ++ bytes_out (sent_payload buf)
               ++ [Deselect] /\
        exists t2,
          wait_ends TIMEOUT_MS READ_STATUS_REGISTER WORK_IN_PROGRESS
            (register_command opcode buf w1) t2 w' /\
          r = (if t2 then - ETIMEDOUT else 0))).
Proof.
  intros Hlive Hne Hd.
  destruct (write_reg_runs opcode buf w Hlive) as [f [r [w' [Hrun Hout]]]].
  exists f, r, w'. split; [exact Hrun |].
  split; [apply log_write_enable; exact Hd |].
  split; [apply sent_payload_small |].
  destruct Hout as [r1 [w1 [Hw1 [[N1 [-> ->]] | [E1 H1]]]]].
  { exists true, w1.
    split; [exact (proj1 (waited_cases _ _ _ _ _ _ Hne Hw1) N1) |]. left. auto. }
  exists false, w1.
  split; [exact (proj2 (waited_cases _ _ _ _ _ _ Hne Hw1) E1) |].
  right. split; [reflexivity |]. split.
  { apply log_register_command. exact (waited_deselects _ _ _ _ _ _ Hw1). }
  destruct H1 as [r2 [w2 [Hw2 [[N2 [-> ->]] | [E2 [-> ->]]]]]].
  - exists true.
    split; [exact (proj1 (waited_cases _ _ _ _ _ _ Hne Hw2) N2) | reflexivity].
  - exists false.
    split; [exact (proj2 (waited_cases _ _ _ _ _ _ Hne Hw2) E2) | reflexivity].
Qed.

Lemma read_loop_range (n : nat) : forall (byte : Z) (w : world),
  0 <= byte < 256 -> 0 <= fst (read_loop n byte w) < 256.
Proof.
  induction n as [| n IH]; intros byte w Hb; [exact Hb |].
  rewrite read_loop_step. apply IH. apply u8_range.
Qed.

Lemma read_data_loop_range (n : nat) : forall (w : world),
  Forall (fun b => 0 <= b < 256) (fst (read_data_loop n w)).
Proof.
  induction n as [| n IH]; intros w; [constructor |].
  cbn [read_data_loop fst]. constructor; [| apply IH].
  unfold spi_bitbang_read. apply read_loop_range. lia.
Qed.

(** X4: the register read always returns 0; its [size_t] length reaches
    [read_data] as an [int], and the buffer receives as many bytes as that
    [int] counts ([len] of them when [len] is below [2 ^ 31]), each between
    0 and 255; from a deselected chip its trace is one transaction: the
    opcode phase, the sampled bytes, deselect. *)
Theorem read_reg_result (opcode : Z) (len : nat) (w : world) :
  fst (fst (spi_flash_nor_read_reg opcode len w)) = 0 /\
  length (snd (fst (spi_flash_nor_read_reg opcode len w))) = int_count len /\
  (Z.of_nat len < 2 ^ 31 -> int_count len = len) /\
  Forall (fun b => 0 <= b < 256)
         (snd (fst (spi_flash_nor_read_reg opcode len w))) /\
  (deselected w ->
   log (snd (spi_flash_nor_read_reg opcode len w)) =
   log w ++ command opcode ++ bytes_in (int_count len) ++ [Deselect]).
Proof.
  split; [reflexivity |].
  unfold spi_flash_nor_read_reg at 1 2, read_data. cbn [fst snd].
  split; [apply read_data_loop_length |].
  split; [apply int_count_small |].
  split; [apply read_data_loop_range |].
  intros Hd. rewrite log_read_reg by exact Hd. reflexivity.
Qed.

(** X8: the wait polls before it looks at the time: when the first poll
    finds the flag clear it returns 0 after that single register read,
    whatever the delay, zero or negative included. *)
Theorem busy_ready_at_once (fuel : nat) (time reg flag : Z) (w : world) :
  still_busy reg flag (snd (get_jiffies w)) = false ->
  busy (S fuel) time reg flag w =
  Some (0, snd (read_status reg (snd (get_jiffies w)))) /\
  (deselected w ->
   log (snd (read_status reg (snd (get_jiffies w)))) =
   log w ++ [Jiffies (jiffies_of (clock w))] ++ read_frame reg 1).
Proof.
  intros Hb. split.
  - unfold busy. rewrite busy_loop_step, Hb. reflexivity.
  - intros Hd. rewrite log_read_status
      by (unfold deselected; rewrite line_get_jiffies; exact Hd).
    rewrite log_get_jiffies, <- app_assoc. reflexivity.
Qed.

End RegisterAccess.

Lemma write_reg_result_witness :
  clock_live (P := const_platform 0) /\
  ETIMEDOUT (Platform := const_platform 0) <> 0 /\
  deselected (ready_world 0) /\
  exists (f : nat) (r : Z) (w' : world (P := const_platform 0)),
    forall fuel, (f <= fuel)%nat ->
      spi_flash_nor_write_reg fuel 1 [0] (ready_world 0) = Some (r, w').
Proof.
  assert (Hne : ETIMEDOUT (Platform := const_platform 0) <> 0)
    by (cbn; discriminate).
  split; [exact (const_clock_live 0) |]. split; [exact Hne |].
  split; [reflexivity |].
  destruct (write_reg_result (P := const_platform 0) 1 [0] (ready_world 0)
              (const_clock_live 0) Hne eq_refl) as [f [r [w' [H _]]]].
  exists f, r, w'. exact H.
Defined.

Lemma busy_ready_at_once_witness :
  still_busy (P := const_platform 0) READ_STATUS_REGISTER WORK_IN_PROGRESS
    (snd (get_jiffies (ready_world 0))) = false /\
  busy 1 0 READ_STATUS_REGISTER WORK_IN_PROGRESS (ready_world 0) =
  Some (0, snd (read_status READ_STATUS_REGISTER
                  (snd (get_jiffies (ready_world 0))))).
Proof.
  assert (H : still_busy (P := const_platform 0) READ_STATUS_REGISTER
                WORK_IN_PROGRESS (snd (get_jiffies (ready_world 0))) = false)
    by (vm_compute; reflexivity).
  split; [exact H |].
  exact (proj1 (busy_ready_at_once (P := const_platform 0) 0 0
                  READ_STATUS_REGISTER WORK_IN_PROGRESS (ready_world 0) H)).
Defined.

Section Addressing.

Context {P : Platform}.

Lemma u32_byte_be (a i : Z) :
  0 <= i < 4 ->
  u32_byte BigEndian (u32 a) i = Z.land (Z.shiftr a (8 * (3 - i))) 255.
Proof.
  intros Hi. unfold u32_byte. apply Z.bits_inj'. intros j Hj.
  rewrite !Z.land_spec. destruct (Z_lt_ge_dec j 8) as [Hlt | Hge].
  - rewrite !Z.shiftr_spec by lia. f_equal.
    unfold u32. rewrite !Z.land_spec.
    change 4294967295 with (Z.ones 32). rewrite Z.ones_spec_low by lia.
    rewrite !andb_true_r. reflexivity.
  - change 255 with (Z.ones 8). rewrite Z.ones_spec_high by lia.
    rewrite !andb_false_r. reflexivity.
Qed.

(** X6: on a big-endian host the byte pointer into [addr32] starts at the
    top byte, so [write_address] clocks out [(a >> 8) & 0xFF], then
    [(a >> 16) & 0xFF], then [(a >> 24) & 0xFF]: the low byte of the address
    is never sent. *)
Theorem write_address_big_endian (a : Z) (w : world) :
  byte_order = BigEndian -> line 2 w = false -> line 3 w = false ->
  log (write_address a w) =
  log w ++ byte_out (Z.land (Z.shiftr a 8) 255)
        ++ byte_out (Z.land (Z.shiftr a 16) 255)
        ++ byte_out (Z.land (Z.shiftr a 24) 255).
Proof.
  intros He H2 H3. rewrite log_write_address_gen by assumption.
  unfold address_bytes. rewrite He. rewrite !u32_byte_be by lia.
  unfold bytes_out. cbn [flat_map]. rewrite app_nil_r. reflexivity.
Qed.

Lemma low_bytes_alias (a k i : Z) :
  0 <= i < 3 ->
  Z.land (Z.shiftr (a + 16777216 * k) (8 * i)) 255 =
  Z.land (Z.shiftr a (8 * i)) 255.
Proof.
  intros Hi. apply Z.bits_inj'. intros j Hj. rewrite !Z.land_spec.
  destruct (Z_lt_ge_dec j 8) as [Hlt | Hge].
  - rewrite !Z.shiftr_spec by lia. f_equal.
    rewrite <- (Z.mod_pow2_bits_low (a + 16777216 * k) 24) by lia.
    rewrite <- (Z.mod_pow2_bits_low a 24 (j + 8 * i)) by lia.
    f_equal. change (2 ^ 24) with 16777216.
    rewrite (Z.mul_comm 16777216 k). apply Z.mod_add. lia.
  - change 255 with (Z.ones 8). rewrite Z.ones_spec_high by lia.
    rewrite !andb_false_r. reflexivity.
Qed.

Lemma write_address_alias (a k : Z) (w : world) :
  byte_order = LittleEndian ->
  write_address (a + 16777216 * k) w = write_address a w.
Proof.
  intros He. unfold write_address.
  change (Z.to_nat ADDRESS_SIZE) with 3%nat. cbn [address_loop].
  rewrite He. rewrite !u32_byte_le by (cbn; lia).
  rewrite !low_bytes_alias by (cbn; lia). reflexivity.
Qed.

(** X7: only the low 24 bits of an offset reach the chip: on a
    little-endian host a read, an erase or a write at an offset 16 MiB
    further behaves exactly as at the offset itself. *)
Theorem offsets_alias_16MiB (nor : spi_nor) (a k : Z) (n fuel : nat)
  (buf : list Z) (w : world) :
  byte_order = LittleEndian ->
  spi_flash_nor_read nor (a + 16777216 * k) n w = spi_flash_nor_read nor a n w /\
  spi_flash_nor_erase fuel nor (a + 16777216 * k) w =
  spi_flash_nor_erase fuel nor a w /\
  spi_flash_nor_write fuel nor (a + 16777216 * k) buf w =
  spi_flash_nor_write fuel nor a buf w.
Proof.
  intros He. split; [| split].
  - unfold spi_flash_nor_read. rewrite write_address_alias by exact He.
    reflexivity.
  - unfold spi_flash_nor_erase.
    destruct (busy fuel TIMEOUT_MS _ _ _) as [[r1 w1] |]; [| reflexivity].
    destruct (negb (r1 =? 0)); [reflexivity |].
    cbv zeta. rewrite write_address_alias by exact He. reflexivity.
  - unfold spi_flash_nor_write.
    destruct (busy fuel TIMEOUT_MS _ _ _) as [[r1 w1] |]; [| reflexivity].
    destruct (negb (r1 =? 0)); [reflexivity |].
    cbv zeta. rewrite write_address_alias by exact He. reflexivity.
Qed.

(** X10: a data read makes exactly [232 + 40 * n] register accesses and a
    register read [88 + 40 * n], where [n] is the number of bytes that the
    [int] length of [read_data] counts (the requested length when it is
    below [2 ^ 31]), whatever the opcode, the address, the chip and the
    data. *)
Theorem read_cost (nor : spi_nor) (op a : Z) (n : nat) (w : world) :
  clock (snd (spi_flash_nor_read nor a n w)) =
  clock w + 232 + 40 * Z.of_nat (int_count n) /\
  clock (snd (spi_flash_nor_read_reg op n w)) =
  clock w + 88 + 40 * Z.of_nat (int_count n) /\
  (Z.of_nat n < 2 ^ 31 -> int_count n = n).
Proof.
  split; [| split; [| apply int_count_small]].
  - unfold spi_flash_nor_read, read_data. cbn [snd].
    rewrite !cs_high_eq, !clock_set_line, !clock_read_data_loop.
    rewrite !enable_high_eq, !clock_set_line.
    unfold write_address. change (Z.to_nat ADDRESS_SIZE) with 3%nat.
    cbn [address_loop]. unfold spi_bitbang_send at 1 2 3.
    rewrite !clock_send_loop, !clock_write_command.
    change (Z.to_nat (BIT_SHIFT + 1)) with 8%nat. unfold int_count. lia.
  - unfold spi_flash_nor_read_reg, read_data. cbn [snd].
    rewrite !cs_high_eq, !clock_set_line, !clock_read_data_loop.
    rewrite !enable_high_eq, !clock_set_line.
    rewrite !clock_write_command. unfold int_count. lia.
Qed.

End Addressing.

Lemma write_address_big_endian_witness :
  byte_order (Platform := const_platform_be 0) = BigEndian /\
  line 2 (write_command 3 (ready_world_be 0)) = false /\
  line 3 (write_command 3 (ready_world_be 0)) = false /\
  log (write_address 66051 (write_command 3 (ready_world_be 0))) =
  log (write_command 3 (ready_world_be 0))
    ++ byte_out 2 ++ byte_out 1 ++ byte_out 0.
Proof.
  split; [reflexivity |]. split; [reflexivity |]. split; [reflexivity |].
  apply (write_address_big_endian (P := const_platform_be 0) 66051
           (write_command 3 (ready_world_be 0))); reflexivity.
Defined.

Lemma offsets_alias_16MiB_witness :
  byte_order (Platform := const_platform 0) = LittleEndian /\
  spi_flash_nor_read sample_nor (66051 + 16777216 * 1) 2 (ready_world 0) =
  spi_flash_nor_read sample_nor 66051 2 (ready_world 0).
Proof.
  split; [reflexivity |].
  exact (proj1 (offsets_alias_16MiB (P := const_platform 0) sample_nor 66051 1
                  2 1 [] (ready_world 0) eq_refl)).
Defined.

Section ClockLine.

Context {P : Platform}.

Lemma pulse_clock_high (w : world) : line 1 (pulse w) = true.
Proof. rewrite line_pulse by lia. reflexivity. Qed.

Lemma set_line_keeps_clock (i : Z) (b : bool) (w : world) :
  0 <= i -> i <> 1 -> line 1 (set_line i b w) = line 1 w.
Proof.
  intros Hi H1. rewrite line_set_line by lia.
  destruct (Z.eqb_spec 1 i); [lia | reflexivity].
Qed.

Lemma send_loop_keeps_clock (n : nat) : forall (c : Z) (w : world),
  line 1 w = true -> line 1 (send_loop n c w) = true.
Proof.
  induction n as [| n IH]; intros c w H; [exact H |].
  rewrite send_loop_step. apply IH. apply pulse_clock_high.
Qed.

Lemma send_clock_high (b : Z) (w : world) :
  line 1 (spi_bitbang_send b w) = true.
Proof.
  unfold spi_bitbang_send. change (Z.to_nat (BIT_SHIFT + 1)) with 8%nat.
  rewrite send_loop_step. apply send_loop_keeps_clock, pulse_clock_high.
Qed.

Lemma read_loop_keeps_clock (n : nat) : forall (byte : Z) (w : world),
  line 1 w = true -> line 1 (snd (read_loop n byte w)) = true.
Proof.
  induction n as [| n IH]; intros byte w H; [exact H |].
  rewrite read_loop_step. apply IH. rewrite line_miso_read.
  apply pulse_clock_high.
Qed.

Lemma read_data_loop_keeps_clock (n : nat) : forall (w : world),
  line 1 w = true -> line 1 (snd (read_data_loop n w)) = true.
Proof.
  induction n as [| n IH]; intros w H; [exact H |].
  cbn [read_data_loop snd]. apply IH. unfold spi_bitbang_read.
  apply read_loop_keeps_clock. exact H.
Qed.

Lemma write_data_loop_keeps_clock (l : list Z) : forall (w : world),
  line 1 w = true -> line 1 (write_data_loop l w) = true.
Proof.
  induction l as [| d l IH]; intros w H; [exact H |].
  cbn [write_data_loop]. apply IH. apply send_clock_high.
Qed.

Lemma write_command_clock_high (op : Z) (w : world) :
  line 1 (write_command op w) = true.
Proof. unfold write_command. apply send_clock_high. Qed.

Lemma write_address_clock_high (a : Z) (w : world) :
  line 1 (write_address a w) = true.
Proof.
  unfold write_address. change (Z.to_nat ADDRESS_SIZE) with 3%nat.
  cbn [address_loop]. apply send_clock_high.
Qed.

Lemma read_data_keeps_clock (n : Z) (w : world) :
  line 1 w = true -> line 1 (snd (read_data n w)) = true.
Proof.
  intros H. unfold read_data. apply read_data_loop_keeps_clock.
  rewrite enable_high_eq, set_line_keeps_clock by lia. exact H.
Qed.

Lemma write_data_keeps_clock (l : list Z) (len : Z) (w : world) :
  line 1 w = true -> line 1 (write_data l len w) = true.
Proof.
  intros H. unfold write_data. apply write_data_loop_keeps_clock.
  rewrite enable_low_eq, set_line_keeps_clock by lia. exact H.
Qed.

Lemma cs_high_keeps_clock (w : world) :
  line 1 (cs CS_ENABLE w) = line 1 w.
Proof. rewrite cs_high_eq. apply set_line_keeps_clock; lia. Qed.

Lemma read_reg_clock_high (op : Z) (n : nat) (w : world) :
  line 1 (snd (spi_flash_nor_read_reg op n w)) = true.
Proof.
  unfold spi_flash_nor_read_reg. cbn [snd]. rewrite cs_high_keeps_clock.
  apply read_data_keeps_clock, write_command_clock_high.
Qed.

Lemma read_status_clock_high (reg : Z) (w : world) :
  line 1 (snd (read_status reg w)) = true.
Proof. rewrite snd_read_status. apply read_reg_clock_high. Qed.

Lemma waited_clock_high (time reg flag : Z) (w : world) (r : Z) (w' : world) :
  waited time reg flag w r w' -> line 1 w' = true.
Proof.
  intros [n [_ H]]. cbv zeta in H.
  destruct (still_busy reg flag _).
  - destruct H as [_ [_ ->]]. unfold poll_step.
    rewrite line_get_jiffies. apply read_status_clock_high.
  - destruct H as [_ ->]. apply read_status_clock_high.
Qed.

Lemma after_wait_clock_high (time reg flag : Z) (w : world) (r : Z)
  (w' : world) (k : world -> Prop) :
  after_wait time reg flag w r w' k ->
  (forall w1, k w1 -> line 1 w' = true) ->
  line 1 w' = true.
Proof.
  intros [r1 [w1 [Hw [[_ [_ ->]] | [_ Hk]]]]] Hcont.
  - exact (waited_clock_high _ _ _ _ _ _ Hw).
  - exact (Hcont w1 Hk).
Qed.

(** X9: [initial_config] parks the clock low, but every operation returns
    with the clock line high, on every path: after the first transaction
    the clock idles high between transactions. *)
Theorem clock_idles_high (nor : spi_nor) (op a : Z) (n : nat)
  (buf : list Z) (w : world) :
  clock_live ->
  line 1 (snd (spi_flash_nor_read_reg op n w)) = true /\
  line 1 (snd (spi_flash_nor_read nor a n w)) = true /\
  (exists f r w',
     (forall fuel, (f <= fuel)%nat ->
        spi_flash_nor_erase fuel nor a w = Some (r, w')) /\
     line 1 w' = true) /\
  (exists f r w',
     (forall fuel, (f <= fuel)%nat ->
        spi_flash_nor_write fuel nor a buf w = Some (r, w')) /\
     line 1 w' = true) /\
  (exists f r w',
     (forall fuel, (f <= fuel)%nat ->
        spi_flash_nor_write_reg fuel op buf w = Some (r, w')) /\
     line 1 w' = true).
Proof.
  intros Hlive.
  split; [apply read_reg_clock_high |]. split.
  { unfold spi_flash_nor_read. cbn [snd]. rewrite cs_high_keeps_clock.
    apply read_data_keeps_clock, write_address_clock_high. }
  split; [| split].
  - destruct (erase_runs nor a w Hlive) as [f [r [w' [Hrun Hout]]]].
    exists f, r, w'. split; [exact Hrun |]. unfold erase_outcome in Hout.
    apply (after_wait_clock_high _ _ _ _ _ _ _ Hout). intros w1 H1.
    apply (after_wait_clock_high _ _ _ _ _ _ _ H1). intros w2 H2.
    apply (after_wait_clock_high _ _ _ _ _ _ _ H2). intros w3 [_ ->].
    apply read_status_clock_high.
  - destruct (write_runs nor a buf w Hlive) as [f [r [w' [Hrun Hout]]]].
    exists f, r, w'. split; [exact Hrun |]. unfold write_outcome in Hout.
    apply (after_wait_clock_high _ _ _ _ _ _ _ Hout). intros w1 H1.
    apply (after_wait_clock_high _ _ _ _ _ _ _ H1). intros w2 [_ ->].
    apply read_status_clock_high.
  - destruct (write_reg_runs op buf w Hlive) as [f [r [w' [Hrun Hout]]]].
    exists f, r, w'. split; [exact Hrun |]. unfold write_reg_outcome in Hout.
    apply (after_wait_clock_high _ _ _ _ _ _ _ Hout). intros w1 H1.
    destruct H1 as [r2 [w2 [Hw2 [[_ [_ ->]] | [_ [_ ->]]]]]];
      exact (waited_clock_high _ _ _ _ _ _ Hw2).
Qed.

End ClockLine.

Lemma clock_idles_high_witness :
  clock_live (P := const_platform 1) /\
  line 1 (ready_world 1) = false /\
  line 1 (snd (spi_flash_nor_read_reg 5 1 (ready_world 1))) = true.
Proof.
  pose proof (const_clock_live 1) as Hlive.
  split; [exact Hlive |]. split; [reflexivity |].
  exact (proj1 (clock_idles_high (P := const_platform 1) sample_nor 5 66051 1
                  [7] (ready_world 1) Hlive)).
Defined.

Section WireLoopback.

Local Existing Instance wire_loopback.

Lemma wire_chip_set_line (i : Z) (b : bool) (w : world) :
  0 <= i ->
  chip (set_line i b w) = Z.b2z (if 0 =? i then b else line 0 w).
Proof.
  intros Hi.
  change (chip (set_line i b w)) with (Z.land (with_bit (u8 (bitbang w)) i b) 1).
  change 1 with (Z.ones 1). rewrite Z.land_ones by lia.
  change (2 ^ 1) with 2. rewrite <- Z.bit0_mod.
  rewrite with_bit_testbit, u8_testbit by lia. reflexivity.
Qed.

Lemma wire_pulse (w : world) : chip (pulse w) = Z.b2z (line 0 w).
Proof.
  unfold pulse. rewrite clk_low_eq, clk_high_eq.
  rewrite wire_chip_set_line by lia. cbn [Z.eqb].
  rewrite line_set_line by lia. reflexivity.
Qed.

Lemma wire_read_loop (n : nat) : forall (byte : Z) (w : world),
  fst (read_loop n byte w) = assemble byte (repeat (line 0 w) n).
Proof.
  induction n as [| n IH]; intros byte w; [reflexivity |].
  rewrite read_loop_step, IH.
  rewrite line_miso_read, line_pulse by lia. cbn [Z.eqb repeat assemble].
  rewrite repeat_length.
  change (fst (miso_read (pulse w))) with (Z.land (u8 (chip (pulse w))) 1).
  rewrite wire_pulse, b2z_bit. reflexivity.
Qed.

Lemma send_loop_last_bit (n : nat) : forall (c : Z) (w : world),
  (n <= 7)%nat ->
  line 0 (send_loop (S n) c w) = Z.testbit c (7 - Z.of_nat n).
Proof.
  induction n as [| n IH]; intros c w Hn.
  - rewrite send_loop_step. cbn [send_loop].
    rewrite line_pulse, line_set_line by lia. reflexivity.
  - rewrite send_loop_step, IH by lia.
    rewrite shifted_testbit by lia. f_equal. lia.
Qed.

(** X5: when the sampled input bit is the last driven output bit, the byte
    received right after sending [b] is 0xFF if [b] is odd and 0 if [b] is
    even: the receive samples eight times the last bit sent. *)
Theorem wire_loopback_reads_last_bit (b : Z) (w : world) :
  fst (spi_bitbang_read (spi_bitbang_send b w)) =
  if Z.testbit b 0 then 255 else 0.
Proof.
  unfold spi_bitbang_read. change (Z.to_nat (BIT_SHIFT + 1)) with 8%nat.
  rewrite wire_read_loop. unfold spi_bitbang_send.
  change (Z.to_nat (BIT_SHIFT + 1)) with 8%nat.
  rewrite send_loop_last_bit by lia.
  change (7 - Z.of_nat 7) with 0. rewrite u8_testbit by lia.
  destruct (Z.testbit b 0); reflexivity.
Qed.

End WireLoopback.

Section StuckBusy.

Context {P : Platform}.

Lemma clock_polls (reg : Z) (n : nat) : forall w : world,
  clock (polls reg n w) = clock w + 128 * Z.of_nat n.
Proof.
  induction n as [| n IH]; intros w; [cbn [polls]; lia |].
  cbn [polls]. rewrite IH, clock_poll_step. lia.
Qed.

(** X11: when no poll ever finds the flag clear, the wait returns
    [- ETIMEDOUT], and not before the deadline: every poll but the last is
    followed by a time that is not after the deadline (an [unsigned long],
    compared as the kernel compares times), the last one by a time after
    it, and the wait has made 128 register accesses per poll. *)
Theorem busy_times_out_when_stuck (time reg flag : Z) (w : world) :
  clock_live ->
  (forall u, still_busy reg flag u = true) ->
  exists (n : nat) (w' : world),
    let deadline :=
      ulong (jiffies_of (clock w) + msecs_to_jiffies (u32 time)) in
    let w0 := snd (get_jiffies w) in
    (forall fuel, (n < fuel)%nat ->
       busy fuel time reg flag w = Some (- ETIMEDOUT, w')) /\
    (forall k, (k < n)%nat ->
       time_after (poll_time reg (polls reg k w0)) deadline = false) /\
    time_after (poll_time reg (polls reg n w0)) deadline = true /\
    clock w' = clock w + 128 * (Z.of_nat n + 1).
Proof.
  intros Hlive Hstuck.
  destruct (deciding_poll time reg flag w Hlive) as [n [Hk Hn]].
  unfold deadline_of in Hk, Hn. rewrite fst_get_jiffies in Hk, Hn.
  exists n, (poll_step reg (polls reg n (snd (get_jiffies w)))).
  cbv zeta.
  split; [| split; [| split]].
  - intros fuel Hf. unfold busy. rewrite fst_get_jiffies.
    rewrite (busy_loop_closed n) by (try assumption; lia).
    rewrite Hstuck. reflexivity.
  - intros k Hlt. exact (proj2 (Hk k Hlt)).
  - apply Hn, Hstuck.
  - rewrite clock_poll_step, clock_polls, clock_get_jiffies. lia.
Qed.

Lemma fst_read_status (reg : Z) (w : world) :
  fst (read_status reg w) =
  nth 0 (snd (fst (spi_flash_nor_read_reg reg 1 w))) 0.
Proof. reflexivity. Qed.

Lemma read_reg_buffer (op : Z) (n : nat) (w : world) :
  snd (fst (spi_flash_nor_read_reg op n w)) =
  fst (read_data (Z.of_nat n) (write_command op w)).
Proof. reflexivity. Qed.

Lemma read_data_one (w : world) :
  fst (read_data 1 w) = [fst (spi_bitbang_read (enable MISO_MODE w))].
Proof. reflexivity. Qed.

Lemma status_of_eq (reg : Z) (w : world) :
  status_of reg w =
  fst (spi_bitbang_read (enable MISO_MODE (write_command reg w))).
Proof.
  unfold status_of.
  rewrite fst_read_status, read_reg_buffer.
  change (Z.of_nat 1) with 1. rewrite read_data_one. reflexivity.
Qed.

End StuckBusy.

Section ConstantChip.

Variable m : Z.

Local Existing Instance const_platform.

Lemma const_read_loop (n : nat) :
  forall (byte : Z) (w : world (P := const_platform m)),
  fst (read_loop n byte w) = assemble byte (repeat (Z.odd m) n).
Proof.
  induction n as [| n IH]; intros byte w; [reflexivity |].
  rewrite read_loop_step, IH. cbn [repeat assemble]. rewrite repeat_length.
  change (fst (miso_read (pulse w))) with (Z.land (u8 m) 1).
  replace (Z.land (u8 m) 1) with (Z.b2z (Z.odd m)); [reflexivity |].
  change 1 with (Z.ones 1). rewrite Z.land_ones by lia.
  change (2 ^ 1) with 2. rewrite <- Z.bit0_mod, u8_testbit by lia.
  rewrite Z.bit0_odd. reflexivity.
Qed.

Lemma const_status (reg : Z) (w : world (P := const_platform m)) :
  status_of reg w = if Z.odd m then 255 else 0.
Proof.
  rewrite status_of_eq. unfold spi_bitbang_read.
  rewrite const_read_loop. change (Z.to_nat (BIT_SHIFT + 1)) with 8%nat.
  destruct (Z.odd m); reflexivity.
Qed.

(** A chip whose data line reads an even value is never busy. *)
Lemma const_ready (reg flag : Z) (w : world (P := const_platform m)) :
  Z.odd m = false -> still_busy reg flag w = false.
Proof.
  intros Hm. unfold still_busy. rewrite const_status, Hm. reflexivity.
Qed.

End ConstantChip.

(** C3 (as stated) fails for a payload whose length does not fit in a
    [long]: on a 32-bit kernel, with a chip that is never busy and reports
    no error, the write of [2 ^ 31] bytes returns a negative number, not
    the length of the payload. *)
Lemma write_length_overflow :
  option_map fst
    (spi_flash_nor_write 1 sample_nor 0 (repeat 0 (Z.to_nat 2147483648))
       (ready_world 0)) = Some (-2147483648) /\
  Z.of_nat (length (repeat 0 (Z.to_nat 2147483648))) = 2147483648.
Proof.
  split.
  - rewrite write_unfold. unfold guarded, busy.
    rewrite busy_loop_step, (const_ready 0) by reflexivity.
    cbn [negb Z.eqb].
    rewrite busy_loop_step, (const_ready 0) by reflexivity.
    cbn [negb Z.eqb option_map fst].
    rewrite const_status. cbn [Z.odd Z.testbit].
    rewrite repeat_length, Z2Nat.id by lia. reflexivity.
  - rewrite repeat_length, Z2Nat.id by lia. reflexivity.
Qed.

(** X12: the deadline survives the wrap-around of the [jiffies] counter:
    a wait of 50 ms that starts 50 ticks before the wrap has the deadline
    0; the time read after the first poll of a busy chip is 78, which is
    after that deadline, and the wait returns [- ETIMEDOUT] there. *)
Lemma busy_times_out_across_wrap :
  fst (get_jiffies wrap_world) = 2 ^ 64 - 50 /\
  deadline_of TIMEOUT_MS wrap_world = 0 /\
  still_busy READ_STATUS_REGISTER WORK_IN_PROGRESS
    (snd (get_jiffies wrap_world)) = true /\
  poll_time READ_STATUS_REGISTER (snd (get_jiffies wrap_world)) = 78 /\
  option_map fst
    (busy 1 TIMEOUT_MS READ_STATUS_REGISTER WORK_IN_PROGRESS wrap_world) =
  Some (- ETIMEDOUT (Platform := wrap_platform)).
Proof. repeat split; vm_compute; reflexivity. Qed.

Lemma busy_times_out_when_stuck_witness :
  clock_live (P := const_platform 1) /\
  (forall u : world (P := const_platform 1),
     still_busy READ_STATUS_REGISTER WORK_IN_PROGRESS u = true) /\
  exists (n : nat) (w' : world (P := const_platform 1)),
    forall fuel, (n < fuel)%nat ->
      busy fuel TIMEOUT_MS READ_STATUS_REGISTER WORK_IN_PROGRESS (ready_world 1)
      = Some (- ETIMEDOUT (Platform := const_platform 1), w').
Proof.
  pose proof (const_clock_live 1) as Hlive.
  assert (Hstuck : forall u : world (P := const_platform 1),
            still_busy READ_STATUS_REGISTER WORK_IN_PROGRESS u = true).
  { intros u. unfold still_busy. rewrite const_status. reflexivity. }
  split; [exact Hlive |]. split; [exact Hstuck |].
  destruct (busy_times_out_when_stuck (P := const_platform 1) TIMEOUT_MS
              READ_STATUS_REGISTER WORK_IN_PROGRESS (ready_world 1)
              Hlive Hstuck) as [n [w' [H _]]].
  exists n, w'. exact H.
Defined.

Lemma enable_register_untouched_witness :
  clock_live (P := const_platform 1) /\
  deselected (ready_world 1) /\
  bitbang_en (ready_world 1) = SPIFLASH_ENABLE /\
  exists (f : nat) (r : Z) (w' : world (P := const_platform 1)),
    (forall fuel, (f <= fuel)%nat ->
       spi_flash_nor_erase fuel sample_nor 66051 (ready_world 1) = Some (r, w')) /\
    bitbang_en w' = SPIFLASH_ENABLE.
Proof.
  split; [exact (const_clock_live 1) |]. split; [reflexivity |].
  split; [reflexivity |].
  destruct (enable_register_untouched (P := const_platform 1) sample_nor 5
              66051 1 [7] (ready_world 1) (const_clock_live 1) eq_refl)
    as [_ [_ [[f [r [w' [H [_ He]]]]] _]]].
  exists f, r, w'. split; [exact H |].
  rewrite He. reflexivity.
Defined.
